(** * Reactyl thermochemistry converters: a shallow embedding

    Two scripts of the repository turn loosely structured sources into
    lists of JSON records:

    - [scripts/enthalpy_md_to_json.py]            (module [Md] below),
    - [Reactyl/scripts/parse_thermo_pdf_to_json.py] (module [Pdf] below).

    Python strings are sequences of Unicode code points and are modelled
    as lists of [N]; Python floats are IEEE binary64 numbers and are
    modelled by Rocq's primitive floats; Python dictionaries that are
    emitted as JSON objects are association lists in insertion order.
    Built-ins that raise ([float], [int]) return a [result]; a
    [try]/[except] of the source is a [match] on that result. *)

From Stdlib Require Import ZArith NArith List String Ascii Bool Lia Floats Permutation.
Import ListNotations.

Set Warnings "-inexact-float".

Local Open Scope N_scope.
Local Open Scope list_scope.

(* ================================================================== *)
(** * Python values                                                    *)
(* ================================================================== *)

Definition codepoint := N.
Definition str := list codepoint.

(** UTF-8 decoding, only used to write Python string literals as Rocq
    string literals. *)
Fixpoint utf8_decode (bs : list N) : str :=
  match bs with
  | [] => []
  | b0 :: r0 =>
    if b0 <? 0x80 then b0 :: utf8_decode r0 else
    match r0 with
    | [] => []
    | b1 :: r1 =>
      if b0 <? 0xE0 then ((b0 - 0xC0) * 64 + (b1 - 0x80)) :: utf8_decode r1 else
      match r1 with
      | [] => []
      | b2 :: r2 =>
        if b0 <? 0xF0
        then ((b0 - 0xE0) * 4096 + (b1 - 0x80) * 64 + (b2 - 0x80)) :: utf8_decode r2
        else
        match r2 with
        | [] => []
        | b3 :: r3 =>
          ((b0 - 0xF0) * 262144 + (b1 - 0x80) * 4096 + (b2 - 0x80) * 64 + (b3 - 0x80))
            :: utf8_decode r3
        end
      end
    end
  end.

Definition u (s : string) : str :=
  utf8_decode (map N_of_ascii (list_ascii_of_string s)).

Fixpoint str_eqb (a b : str) : bool :=
  match a, b with
  | [], [] => true
  | x :: a', y :: b' => (x =? y) && str_eqb a' b'
  | _, _ => false
  end.

Definition is_empty {A : Type} (l : list A) : bool :=
  match l with [] => true | _ => false end.

(** Exceptions raised by the built-ins the scripts call. *)
Inductive exn := ValueError | TypeError | LibraryError.

Inductive result (A : Type) : Type :=
| Ok (a : A)
| Raise (e : exn).
Arguments Ok {A} a.
Arguments Raise {A} e.

(** Values of an emitted JSON object. *)
Inductive value :=
| VNone
| VStr (s : str)
| VFloat (f : float)
| VInt (n : Z).

Definition record := list (string * value).

Definition keys (r : record) : list string := map fst r.
Definition values (r : record) : list value := map snd r.

(** The empty-value sentinel: the empty string. *)
Definition sentinel : value := VStr [].

Definition is_none (v : value) : bool :=
  match v with VNone => true | _ => false end.

(* ================================================================== *)
(** * String built-ins                                                 *)
(* ================================================================== *)

(** [str.isspace] on one code point; also the class [\s] of [re] on
    [str] patterns and the characters removed by [str.strip()]. *)
Definition isspace (c : codepoint) : bool :=
  ((0x09 <=? c) && (c <=? 0x0D)) || ((0x1C <=? c) && (c <=? 0x20))
  || (c =? 0x85) || (c =? 0xA0) || (c =? 0x1680)
  || ((0x2000 <=? c) && (c <=? 0x200A))
  || (c =? 0x2028) || (c =? 0x2029) || (c =? 0x202F) || (c =? 0x205F)
  || (c =? 0x3000).

(** The code points of the digit zero of every decimal-digit block
    (Unicode 14.0, general category Nd); each block holds the ten digits
    in order. *)
Definition decimal_zeros : list codepoint :=
  [ 0x30; 0x660; 0x6f0; 0x7c0; 0x966; 0x9e6; 0xa66; 0xae6; 0xb66; 0xbe6;
    0xc66; 0xce6; 0xd66; 0xde6; 0xe50; 0xed0; 0xf20; 0x1040; 0x1090;
    0x17e0; 0x1810; 0x1946; 0x19d0; 0x1a80; 0x1a90; 0x1b50; 0x1bb0;
    0x1c40; 0x1c50; 0xa620; 0xa8d0; 0xa900; 0xa9d0; 0xa9f0; 0xaa50;
    0xabf0; 0xff10; 0x104a0; 0x10d30; 0x11066; 0x110f0; 0x11136; 0x111d0;
    0x112f0; 0x11450; 0x114d0; 0x11650; 0x116c0; 0x11730; 0x118e0;
    0x11950; 0x11c50; 0x11d50; 0x11da0; 0x16a60; 0x16ac0; 0x16b50;
    0x1d7ce; 0x1d7d8; 0x1d7e2; 0x1d7ec; 0x1d7f6; 0x1e140; 0x1e2f0;
    0x1e950; 0x1fbf0 ].

(** The decimal value of a code point, if it is a decimal digit. *)
Definition decimal_value (c : codepoint) : option N :=
  match find (fun z => (z <=? c) && (c <? z + 10)) decimal_zeros with
  | Some z => Some (c - z)
  | None => None
  end.

(** The class [\d] of [re] on [str] patterns. *)
Definition isdecimal (c : codepoint) : bool :=
  match decimal_value c with Some _ => true | None => false end.

Definition is_ascii_digit (c : codepoint) : bool := (0x30 <=? c) && (c <=? 0x39).

(** The class [[A-Za-z]]. *)
Definition is_ascii_letter (c : codepoint) : bool :=
  ((0x41 <=? c) && (c <=? 0x5A)) || ((0x61 <=? c) && (c <=? 0x7A)).

(** Longest prefix whose characters all satisfy [p], and the rest. *)
Fixpoint span (p : codepoint -> bool) (s : str) : str * str :=
  match s with
  | [] => ([], [])
  | c :: r => if p c then let (a, b) := span p r in (c :: a, b) else ([], s)
  end.

Fixpoint lstrip (s : str) : str :=
  match s with
  | c :: r => if isspace c then lstrip r else s
  | [] => []
  end.

Definition rstrip (s : str) : str := rev (lstrip (rev s)).

(** [s.strip()] *)
Definition strip (s : str) : str := rstrip (lstrip s).

(** [s.lower()], given on the ASCII letters.  The scripts never emit
    lowered text; they only test it against ASCII literals, by equality
    or as substrings.  Outside ASCII only two code points have a lower
    case that holds an ASCII letter: U+212A (lower case [k]) and U+0130
    (lower case [i] followed by U+0307).  No literal of the scripts holds
    a [k] or ends in [i], so leaving every code point outside ASCII
    unchanged gives the same answer to each of these tests. *)
Definition lower_char (c : codepoint) : codepoint :=
  if (0x41 <=? c) && (c <=? 0x5A) then c + 32 else c.

Definition lower (s : str) : str := map lower_char s.

(** [s.startswith(p)] *)
Fixpoint startswith (p s : str) : bool :=
  match p, s with
  | [], _ => true
  | x :: p', y :: s' => (x =? y) && startswith p' s'
  | _ :: _, [] => false
  end.

(** [sub in s] *)
Fixpoint contains (sub s : str) : bool :=
  startswith sub s ||
  match s with
  | [] => false
  | _ :: r => contains sub r
  end.

(** [c in s] for a one-character string [c]. *)
Definition has_char (c : codepoint) (s : str) : bool := existsb (N.eqb c) s.

(** [s.split(c, 1)] for a one-character separator: the text before the
    first [c] and the text after it (the whole text and nothing when [c]
    does not occur). *)
Fixpoint split_first (c : codepoint) (s : str) : str * option str :=
  match s with
  | [] => ([], None)
  | x :: r =>
    if x =? c then ([], Some r)
    else let (a, b) := split_first c r in (x :: a, b)
  end.

(** [s.replace(c, "")] for a one-character string [c]. *)
Definition remove_char (c : codepoint) (s : str) : str :=
  filter (fun x => negb (x =? c)) s.

(** [sep.join(parts)] *)
Fixpoint join (sep : str) (parts : list str) : str :=
  match parts with
  | [] => []
  | [p] => p
  | p :: ps => p ++ sep ++ join sep ps
  end.

(** [s.rstrip("\n")] *)
Definition rstrip_newlines (s : str) : str :=
  rev (snd (span (N.eqb 0x0A) (rev s))).

Definition is_linebreak (c : codepoint) : bool :=
  ((0x0A <=? c) && (c <=? 0x0D)) || ((0x1C <=? c) && (c <=? 0x1E))
  || (c =? 0x85) || (c =? 0x2028) || (c =? 0x2029).

(** [s.splitlines()]: [cur] is the line being read, reversed. *)
Fixpoint splitlines_from (cur : str) (s : str) : list str :=
  match s with
  | [] => if is_empty cur then [] else [rev cur]
  | c :: r =>
    if is_linebreak c then
      rev cur ::
      match r with
      | d :: r' =>
        if (c =? 0x0D) && (d =? 0x0A) then splitlines_from [] r'
        else splitlines_from [] r
      | [] => splitlines_from [] r
      end
    else splitlines_from (c :: cur) r
  end.

Definition splitlines (s : str) : list str := splitlines_from [] s.

(** [re.split(r"\s{n,}", s)] for [n >= 1]: the text is cut at every
    maximal run of at least [n] whitespace characters.  [cur] is the
    segment being read and [pend] the whitespace run being read, both
    reversed. *)
Fixpoint split_ws_runs (n : nat) (cur pend : str) (s : str) : list str :=
  match s with
  | [] =>
    if is_empty pend then [rev cur]
    else if (n <=? List.length pend)%nat then [rev cur; []]
    else [rev (pend ++ cur)]
  | c :: r =>
    if isspace c then split_ws_runs n cur (c :: pend) r
    else if is_empty pend then split_ws_runs n (c :: cur) [] r
    else if (n <=? List.length pend)%nat then rev cur :: split_ws_runs n [c] [] r
    else split_ws_runs n (c :: pend ++ cur) [] r
  end.

Definition re_split_ws (n : nat) (s : str) : list str := split_ws_runs n [] [] s.

(** [re.split("(c)", s)] for one character [c]: the separators are kept
    as items of their own. *)
Fixpoint split_keep (c : codepoint) (cur : str) (s : str) : list str :=
  match s with
  | [] => [rev cur]
  | x :: r =>
    if x =? c then rev cur :: [c] :: split_keep c [] r
    else split_keep c (x :: cur) r
  end.

(* ================================================================== *)
(** * The regular expressions of the scripts                           *)
(* ================================================================== *)

(** The patterns of the scripts are sequences of greedy repetitions of
    character classes, with one optional group.  Matching follows the
    backtracking order of [re]: every function returns the texts that
    remain after each way of matching, the preferred way first. *)
Inductive item :=
| Rep (cls : codepoint -> bool) (lo : nat) (hi : option nat).

Inductive atom :=
| One (i : item)
| Opt (body : list item).

Definition Chr (c : codepoint) : item := Rep (N.eqb c) 1 (Some 1%nat).

Fixpoint rep_matches (cls : codepoint -> bool) (lo : nat) (hi : option nat)
         (s : str) : list str :=
  let stop := match lo with O => [s] | S _ => [] end in
  match hi with
  | Some O => stop
  | _ =>
    match s with
    | c :: r =>
      if cls c then rep_matches cls (pred lo) (option_map pred hi) r ++ stop
      else stop
    | [] => stop
    end
  end.

Definition match_item (i : item) (s : str) : list str :=
  match i with Rep cls lo hi => rep_matches cls lo hi s end.

Fixpoint match_items (l : list item) (s : str) : list str :=
  match l with
  | [] => [s]
  | i :: l' => flat_map (match_items l') (match_item i s)
  end.

Definition match_atom (a : atom) (s : str) : list str :=
  match a with
  | One i => match_item i s
  | Opt body => match_items body s ++ [s]
  end.

Fixpoint match_seq (l : list atom) (s : str) : list str :=
  match l with
  | [] => [s]
  | a :: l' => flat_map (match_seq l') (match_atom a s)
  end.

(** [$] without [re.MULTILINE]: the end of the text, or just before a
    newline that ends the text. *)
Definition at_end (s : str) : bool :=
  match s with
  | [] => true
  | [c] => c =? 0x0A
  | _ => false
  end.

(** [re.match("^" + pattern + "$", s) is not None] *)
Definition re_fullmatch (pattern : list atom) (s : str) : bool :=
  existsb at_end (match_seq pattern s).

(** [\d{2,7}-\d{2}-\d] *)
Definition cas_pattern : list atom :=
  [One (Rep isdecimal 2 (Some 7%nat)); One (Chr 0x2D);
   One (Rep isdecimal 2 (Some 2%nat)); One (Chr 0x2D);
   One (Rep isdecimal 1 (Some 1%nat))].

(** [\d{2,7}-\d{2}-\d\*\d+] *)
Definition cas_relative_pattern : list atom :=
  cas_pattern ++ [One (Chr 0x2A); One (Rep isdecimal 1 None)].

(** [[A-Za-z]+/mol] *)
Definition units_pattern : list atom :=
  [One (Rep is_ascii_letter 1 None); One (Chr 0x2F); One (Chr 0x6D);
   One (Chr 0x6F); One (Chr 0x6C)].

Definition is_sign (c : codepoint) : bool := (c =? 0x2D) || (c =? 0x2B).

(** [[-+]?\d+(?:\.\d+)?] *)
Definition number_pattern : list atom :=
  [One (Rep is_sign 0 (Some 1%nat)); One (Rep isdecimal 1 None);
   Opt [Chr 0x2E; Rep isdecimal 1 None]].

(** The Unicode code point of the plus-minus sign. *)
Definition PLUS_MINUS : codepoint := 0xB1.

(** [m = re.search(r"±\s*([-+]?\d+(?:\.\d+)?)", s)], giving [m.group(1)]
    when there is a match. *)
Fixpoint search_pm_number (s : str) : option str :=
  let found :=
    flat_map (fun r1 => map (fun r2 => firstn (List.length r1 - List.length r2) r1)
                            (match_seq number_pattern r1))
             (match_items [Chr PLUS_MINUS; Rep isspace 0 None] s) in
  match found with
  | g :: _ => Some g
  | [] =>
    match s with
    | [] => None
    | _ :: r => search_pm_number r
    end
  end.

(* ================================================================== *)
(** * The built-ins [float] and [int] on strings                       *)
(* ================================================================== *)

(** White space of the C layer that parses numbers. *)
Definition is_c_space (c : codepoint) : bool :=
  ((0x09 <=? c) && (c <=? 0x0D)) || (c =? 0x20).

(** Before a number is parsed, spaces and decimal digits of every script
    are replaced by their ASCII counterparts; the text is cut at the
    first other character above U+007E, which becomes a question mark. *)
Fixpoint to_ascii_decimal (s : str) : str :=
  match s with
  | [] => []
  | c :: r =>
    if c <? 127 then c :: to_ascii_decimal r
    else if isspace c then 0x20 :: to_ascii_decimal r
    else match decimal_value c with
         | Some d => (0x30 + d) :: to_ascii_decimal r
         | None => [0x3F]
         end
  end.

(** Underscores may only stand between two digits; they are removed.
    [prev] is the character read last (NUL at the start). *)
Fixpoint strip_underscores (prev : codepoint) (s : str) : option str :=
  match s with
  | [] => if prev =? 0x5F then None else Some []
  | c :: r =>
    if c =? 0x5F then
      if is_ascii_digit prev then strip_underscores c r else None
    else if (prev =? 0x5F) && negb (is_ascii_digit c) then None
    else option_map (cons c) (strip_underscores c r)
  end.

Fixpoint lstrip_c (s : str) : str :=
  match s with
  | c :: r => if is_c_space c then lstrip_c r else s
  | [] => []
  end.

Definition strip_c (s : str) : str := rev (lstrip_c (rev (lstrip_c s))).

(** The number written by a string of ASCII digits. *)
Definition digits_value (ds : str) : Z :=
  fold_left (fun acc d => (acc * 10 + (Z.of_N d - 48))%Z) ds 0%Z.

Definition signed_zero (neg : bool) : float := if neg then neg_zero else zero.
Definition signed_infinity (neg : bool) : float :=
  if neg then neg_infinity else infinity.

(** The binary64 number nearest to [num / den], ties to even. *)
Definition round_quotient (neg : bool) (num den : Z) : float :=
  let '(q, e, l) := SFdiv_core_binary prec emax num 0 den 0 in
  SF2Prim (binary_round_aux prec emax neg q e l).

(** The binary64 number nearest to [m * 10 ^ e], where [m >= 0] is
    written with [n] digits.  Far outside the range of binary64 the
    result is known without computing the power of ten. *)
Definition decimal_to_float (neg : bool) (m : Z) (n : nat) (e : Z) : float :=
  if (m =? 0)%Z then signed_zero neg
  else if (400 <? e)%Z then signed_infinity neg
  else if (Z.of_nat n + e <? -400)%Z then signed_zero neg
  else if (0 <=? e)%Z then round_quotient neg (m * 10 ^ e) 1
  else round_quotient neg m (10 ^ (- e)).

Definition parse_sign (s : str) : bool * str :=
  match s with
  | c :: r =>
    if c =? 0x2D then (true, r) else if c =? 0x2B then (false, r) else (false, s)
  | [] => (false, s)
  end.

(** An exponent part [e], [e+] or [e-] followed by digits: its value and
    the text after it.  Without digits nothing is consumed. *)
Definition parse_exponent (s : str) : Z * str :=
  match s with
  | c :: r =>
    if (c =? 0x65) || (c =? 0x45) then
      let (eneg, r1) := parse_sign r in
      let (ed, r2) := span is_ascii_digit r1 in
      if is_empty ed then (0%Z, s)
      else ((if eneg then - digits_value ed else digits_value ed)%Z, r2)
    else (0%Z, s)
  | [] => (0%Z, s)
  end.

(** [inf], [infinity] and [nan] in any case, after the sign. *)
Definition parse_inf_or_nan (neg : bool) (s : str) : option (float * str) :=
  if startswith (u "inf") (lower (firstn 3 s)) then
    if startswith (u "inity") (lower (firstn 5 (skipn 3 s)))
    then Some (signed_infinity neg, skipn 8 s)
    else Some (signed_infinity neg, skipn 3 s)
  else if startswith (u "nan") (lower (firstn 3 s)) then Some (nan, skipn 3 s)
  else None.

(** The C conversion behind [float]: the longest prefix of [s] that
    writes a number, its value and the text that follows; [None] when no
    prefix writes a number. *)
Definition string_to_double (s : str) : option (float * str) :=
  let (neg, s1) := parse_sign s in
  let (ip, s2) := span is_ascii_digit s1 in
  let (fp, s3) :=
    match s2 with
    | c :: r => if c =? 0x2E then span is_ascii_digit r else ([], s2)
    | [] => ([], s2)
    end in
  if is_empty ip && is_empty fp then parse_inf_or_nan neg s1
  else
    let (ex, s4) := parse_exponent s3 in
    Some (decimal_to_float neg (digits_value (ip ++ fp))
                           (List.length (ip ++ fp))
                           (ex - Z.of_nat (List.length fp)), s4).

(** [float(s)] for a string [s]. *)
Definition float_of_str (s : str) : result float :=
  match strip_underscores 0 (to_ascii_decimal s) with
  | None => Raise ValueError
  | Some t =>
    match string_to_double (strip_c t) with
    | Some (x, []) => Ok x
    | _ => Raise ValueError
    end
  end.

(** [float(v)] where [v] is a string or [None]. *)
Definition py_float (v : option str) : result float :=
  match v with
  | None => Raise TypeError
  | Some s => float_of_str s
  end.

(** [int(s)] for a string [s] (base ten).  The run-time limit on the
    number of digits of an integer literal is a setting of the
    interpreter and is not modelled. *)
Definition py_int (s : str) : result Z :=
  match strip_underscores 0 (to_ascii_decimal s) with
  | None => Raise ValueError
  | Some t =>
    let (neg, t1) := parse_sign (strip_c t) in
    let (ds, t2) := span is_ascii_digit t1 in
    if is_empty ds || negb (is_empty t2) then Raise ValueError
    else Ok (if neg then - digits_value ds else digits_value ds)%Z
  end.

(** ** [repr] of a float

    [str(x)] of a float [x] is [repr(x)]: the shortest string of decimal
    digits that reads back as [x], the nearest to [x] among the shortest
    ones, written with an exponent when [x >= 1e16] or [x < 1e-4]. *)

















(** Truth value of a float: every float but the two zeros is true. *)
Definition float_truthy (f : float) : bool := negb (PrimFloat.eqb f zero).

(** Conversions of optional Python values to JSON values. *)
Definition of_str (o : option str) : value :=
  match o with Some s => VStr s | None => VNone end.
Definition of_float (o : option float) : value :=
  match o with Some f => VFloat f | None => VNone end.
Definition of_int (o : option Z) : value :=
  match o with Some n => VInt n | None => VNone end.

(** [s or None] *)
Definition or_none (s : str) : option str :=
  if is_empty s then None else Some s.

Definition ASTERISK : codepoint := 0x2A.
Definition SPACE : codepoint := 0x20.
Definition COMMA : codepoint := 0x2C.

Local Open Scope string_scope.
Local Open Scope N_scope.
Local Open Scope list_scope.

(** The keys of the record schema, in the order of the data model. *)
Definition schema_keys : list string :=
  [ "common_name"; "structure"; "enthalpy_of_formation_0K";
    "enthalpy_of_formation_298K"; "entropy_298K"; "gibbs_free_energy_298K";
    "phase"; "uncertainty_value"; "molecular_mass";
    "molecular_mass_uncertainty"; "cas_rn"; "relative_rank" ].

(** [rec[k]] *)
Definition get (k : string) (r : record) : option value :=
  option_map snd (find (fun kv => String.eqb (fst kv) k) r).

(* ================================================================== *)
(** * scripts/enthalpy_md_to_json.py                                   *)
(* ================================================================== *)

Module Md.

(** [try: return float(value) / except Exception: return None] *)
Definition _safe_float (value : option str) : option float :=
  match py_float value with
  | Ok f => Some f
  | Raise _ => None
  end.

(** The test ["*" in token] and [token.split("*", 1)] are one call of
    [split_first]: it finds a second part exactly when the token
    contains an asterisk. *)
Definition _split_cas_and_relative (token : str) : option str * option Z :=
  let token := strip token in
  match split_first ASTERISK token with
  | (cas, Some rel) =>
    match py_int (strip rel) with
    | Ok n => (or_none (strip cas), Some n)
    | Raise _ => (or_none (strip cas), None)
    end
  | (_, None) =>
    if re_fullmatch cas_pattern token then (Some token, None)
    else (None, None)
  end.

Definition _tokenize_loose (text : str) : list str :=
  let raw := re_split_ws 1 (strip text) in
  flat_map
    (fun t =>
       if is_empty t then []
       else if negb (str_eqb t [PLUS_MINUS]) && has_char PLUS_MINUS t
       then filter (fun p => negb (is_empty p)) (split_keep PLUS_MINUS [] t)
       else [t])
    raw.

Inductive kind := exact | numeric.

Definition is_exact (k : option kind) : bool :=
  match k with Some exact => true | _ => false end.

(** The local variables of [parse_record] before its last step; [idx]
    is the positional cursor. *)
Record fields := {
  idx : nat;
  structure : option str;
  dH0 : option float;
  dH298 : option float;
  uncertainty_kind : option kind;
  uncertainty_value : option float;
  units : option str;
  molecular_mass : option float;
  molecular_mass_unc : option float
}.

(** [tokens[i]], read only under the guard [i < len(tokens)]. *)
Definition tok (tokens : list str) (i : nat) : str := nth i tokens [].

Definition in_range (i : nat) (tokens : list str) : bool :=
  (i <? List.length tokens)%nat.

(** Lines 55-62: is the first token a structure or a number? *)
Definition step_structure (tokens : list str) : option str * nat :=
  match _safe_float (Some (tok tokens 0)) with
  | Some _ => (None, 0%nat)
  | None => (Some (tok tokens 0), 1%nat)
  end.

(** Lines 67-70, once for each of the two enthalpies. *)
Definition step_float (tokens : list str) (i : nat) : option float * nat :=
  if in_range i tokens then (_safe_float (Some (tok tokens i)), S i)
  else (None, i).

(** Lines 77-97. *)
Definition step_uncertainty (tokens : list str) (i : nat)
  : option kind * option float * nat :=
  if in_range i tokens then
    let tk := tok tokens i in
    if str_eqb (lower tk) (u "exact") then (Some exact, None, S i)
    else if str_eqb tk [PLUS_MINUS] then
      if in_range (S i) tokens then
        match _safe_float (Some (tok tokens (S i))) with
        | Some val => (Some numeric, Some val, S (S i))
        | None => (None, None, S i)
        end
      else (None, None, S i)
    else if startswith [PLUS_MINUS] tk then
      match search_pm_number tk with
      | Some g => (Some numeric, _safe_float (Some g), S i)
      | None => (None, None, S i)
      end
    else (None, None, i)
  else (None, None, i).

(** Lines 100-103. *)
Definition step_units (k : option kind) (tokens : list str) (i : nat)
  : option str * nat :=
  if negb (is_exact k) && in_range i tokens then
    if re_fullmatch units_pattern (tok tokens i)
    then (Some (tok tokens i), S i)
    else (None, i)
  else (None, i).

(** Lines 106-121. *)
Definition step_mass (tokens : list str) (i : nat)
  : option float * option float * nat :=
  if in_range i tokens then
    let mass := _safe_float (Some (tok tokens i)) in
    if in_range (S i) tokens then
      if str_eqb (tok tokens (S i)) [PLUS_MINUS] then
        if in_range (S (S i)) tokens
        then (mass, _safe_float (Some (tok tokens (S (S i)))), S (S (S i)))
        else (mass, None, S (S i))
      else if startswith [PLUS_MINUS] (tok tokens (S i)) then
        match search_pm_number (tok tokens (S i)) with
        | Some g => (mass, _safe_float (Some g), S (S i))
        | None => (mass, None, S (S i))
        end
      else (mass, None, S i)
    else (mass, None, S i)
  else (None, None, i).

(** Lines 55-121 in order. *)
Definition decode_positional (tokens : list str) : fields :=
  let '(structure, i) := step_structure tokens in
  let '(dH0, i) := step_float tokens i in
  let '(dH298, i) := step_float tokens i in
  let '(uncertainty_kind, uncertainty_value, i) := step_uncertainty tokens i in
  let '(units, i) := step_units uncertainty_kind tokens i in
  let '(molecular_mass, molecular_mass_unc, i) := step_mass tokens i in
  {| idx := i; structure := structure; dH0 := dH0; dH298 := dH298;
     uncertainty_kind := uncertainty_kind;
     uncertainty_value := uncertainty_value; units := units;
     molecular_mass := molecular_mass;
     molecular_mass_unc := molecular_mass_unc |}.

(** Lines 124-129: [tokens[-1]] is the last token. *)
Definition step_cas (tokens : list str) (i : nat) : option str * option Z :=
  if in_range i tokens then
    let last_tok := last tokens [] in
    if has_char ASTERISK last_tok then _split_cas_and_relative last_tok
    else (None, None)
  else (None, None).

Definition parse_record (line1 line2 : str) : option record :=
  let species_name := or_none (strip line1) in
  let tokens := _tokenize_loose line2 in
  if is_empty tokens then None
  else
    let f := decode_positional tokens in
    let '(cas, relative) := step_cas tokens (idx f) in
    Some [ ("common_name", of_str species_name);
           ("structure", of_str (structure f));
           ("enthalpy_of_formation_0K", of_float (dH0 f));
           ("enthalpy_of_formation_298K", of_float (dH298 f));
           ("uncertainty_value", of_float (uncertainty_value f));
           ("molecular_mass", of_float (molecular_mass f));
           ("molecular_mass_uncertainty", of_float (molecular_mass_unc f));
           ("cas_rn", of_str cas);
           ("relative_rank", of_int relative) ].

(** The keys of the dictionary built by [parse_record]. *)
Definition record_keys : list string :=
  [ "common_name"; "structure"; "enthalpy_of_formation_0K";
    "enthalpy_of_formation_298K"; "uncertainty_value"; "molecular_mass";
    "molecular_mass_uncertainty"; "cas_rn"; "relative_rank" ].

(** Lines 199-201: [None] becomes the empty string. *)
Definition sanitize (rec : record) : record :=
  map (fun kv => (fst kv, if is_none (snd kv) then sentinel else snd kv)) rec.

(** Line 188: does a token of the line look like [CAS*relative]? *)
Definition has_cas (line : str) : bool :=
  existsb (fun t => has_char ASTERISK t && re_fullmatch cas_relative_pattern t)
          (_tokenize_loose line).

(** Lines 195-202: a dictionary of nine keys is true, so [if rec] only
    rejects [None]. *)
Definition emit (species_name_line : str) (data_lines : list str) : list record :=
  match parse_record species_name_line (join [SPACE] data_lines) with
  | Some rec => [sanitize rec]
  | None => []
  end.

(** The loop of lines 164-202 over [lines[i:]].  Blank lines are skipped,
    so the test of line 174 on the stripped species-name line is the
    same test as the skip. *)
Fixpoint scan (lines : list str) : list record :=
  match lines with
  | [] => []
  | ln :: rest =>
    let species_name_line := strip ln in
    if is_empty species_name_line then scan rest
    else
      (fix accumulate (ls data_lines : list str) {struct ls} : list record :=
         match ls with
         | [] => emit species_name_line data_lines
         | l :: ls' =>
           let next_line := strip l in
           if is_empty next_line then accumulate ls' data_lines
           else if has_cas next_line
                then emit species_name_line (data_lines ++ [next_line]) ++ scan ls'
                else accumulate ls' (data_lines ++ [next_line])
         end) rest []
  end.

Fixpoint find_index {A : Type} (p : A -> bool) (l : list A) : option nat :=
  match l with
  | [] => None
  | x :: r => if p x then Some 0%nat else option_map S (find_index p r)
  end.

(** Lines 150-162. *)
Definition start_index (lines : list str) : nat :=
  match find_index (fun ln => str_eqb (strip ln) (u "Dihydrogen")) lines with
  | Some i => i
  | None =>
    match find_index (fun ln => startswith (u "Species Name") (strip ln)) lines with
    | Some i => S i
    | None => 0%nat
    end
  end.

(** [parse_file] on the lines read from the file. *)
Definition parse_file (file_lines : list str) : list record :=
  let lines := map rstrip_newlines file_lines in
  scan (skipn (start_index lines) lines).

End Md.

(* ================================================================== *)
(** * Reactyl/scripts/parse_thermo_pdf_to_json.py                      *)
(* ================================================================== *)

Module Pdf.

(** The characters kept by [re.sub(r"[^0-9+\-\.Ee]", "", t)]. *)
Definition numeric_char (c : codepoint) : bool :=
  is_ascii_digit c || (c =? 0x2B) || (c =? 0x2D) || (c =? 0x2E)
  || (c =? 0x45) || (c =? 0x65).

(** Lines 11-16 without the test for emptiness: the text handed to
    [float]. *)
Definition cleaned (s : str) : str :=
  filter numeric_char (remove_char COMMA (strip s)).

(** [str(s)] is [s] for a string. *)
Definition _safe_float (s : option str) : option float :=
  match s with
  | None => None
  | Some s =>
    let t := strip s in
    if is_empty t then None
    else
      let t := remove_char COMMA t in
      let t := filter numeric_char t in
      match py_float (Some t) with
      | Ok f => Some f
      | Raise _ => None
      end
  end.


(** [re.sub(r"\s+", " ", s)]; [in_run] tells that the character before
    was white space. *)
Fixpoint collapse_ws (in_run : bool) (s : str) : str :=
  match s with
  | [] => []
  | c :: r =>
    if isspace c then
      if in_run then collapse_ws true r else SPACE :: collapse_ws true r
    else c :: collapse_ws false r
  end.

(** Cells are strings ([cell or ""] is the cell itself). *)
Definition _normalize_header (cell : str) : str :=
  collapse_ws false (lower (strip cell)).

Definition table := list (list str).

(** The dictionary [cols] of [_find_columns]: one index per key, [-1]
    while the column is not found. *)
Record columns := {
  formula : Z;
  state : Z;
  enthalpy : Z;
  entropy : Z;
  gibbs : Z
}.

Definition no_columns : columns :=
  {| formula := -1; state := -1; enthalpy := -1; entropy := -1; gibbs := -1 |}.

Definition is_formula (h : str) : bool :=
  contains (u "formula") h || str_eqb h (u "species") || str_eqb h (u "name").
Definition is_state (h : str) : bool :=
  contains (u "state of matter") h || str_eqb h (u "state") || contains (u "state") h.
Definition is_enthalpy (h : str) : bool := contains (u "enthalpy") h.
Definition is_entropy (h : str) : bool := contains (u "entropy") h.
Definition is_gibbs (h : str) : bool :=
  contains (u "gibbs") h || contains (u "free energy") h.

Definition unset (c : Z) : bool := (c =? -1)%Z.

(** One turn of the loop of lines 84-94. *)
Definition visit (cols : columns) (i : Z) (h : str) : columns :=
  {| formula := if unset (formula cols) && is_formula h then i else formula cols;
     state := if unset (state cols) && is_state h then i else state cols;
     enthalpy := if unset (enthalpy cols) && is_enthalpy h then i else enthalpy cols;
     entropy := if unset (entropy cols) && is_entropy h then i else entropy cols;
     gibbs := if unset (gibbs cols) && is_gibbs h then i else gibbs cols |}.

Fixpoint visit_from (i : Z) (norm : list str) (cols : columns) : columns :=
  match norm with
  | [] => cols
  | h :: r => visit_from (i + 1) r (visit cols i h)
  end.

Definition _find_columns (header : list str) : columns :=
  visit_from 0 (map _normalize_header header) no_columns.

(** [row[c] if c >= 0 and c < len(row) else ""] *)
Definition cell_at (row : list str) (c : Z) : str :=
  if ((0 <=? c) && (c <? Z.of_nat (List.length row)))%Z
  then nth (Z.to_nat c) row []
  else [].

Definition mem (s : str) (l : list str) : bool := existsb (str_eqb s) l.

(** Lines 122-127; the result is a literal or the empty string. *)
Definition phase_of (state_cell : str) : str :=
  let st := lower (strip state_cell) in
  if mem st [u "(g)"; u "g"; u "gas"] then u "gas"
  else if mem st [u "(l)"; u "l"; u "liquid"] then u "liquid"
  else if mem st [u "(s)"; u "s"; u "solid"] then u "solid"
  else if contains (u "aq") st then u "aqueous"
  else [].

(** [x if x is not None else ""] *)
Definition or_sentinel (o : option float) : value :=
  match o with Some f => VFloat f | None => sentinel end.

(** Line 108: [any(cell and str(cell).strip() for cell in row)] *)
Definition has_content (row : list str) : bool :=
  existsb (fun cell => negb (is_empty cell) && negb (is_empty (strip cell))) row.

(** Lines 111-142.  With cells that are strings no statement of the
    [try] block raises, so the handler of line 144 is never entered. *)
Definition row_record (cols : columns) (row : list str) : record :=
  let formula := cell_at row (formula cols) in
  let enthalpy := cell_at row (enthalpy cols) in
  let state := cell_at row (state cols) in
  let entropy := cell_at row (entropy cols) in
  let gibbs := cell_at row (gibbs cols) in
  let enthalpy_val := _safe_float (Some enthalpy) in
  let entropy_val := _safe_float (Some entropy) in
  let gibbs_val := _safe_float (Some gibbs) in
  [ ("common_name", VStr []);
    ("structure", VStr (strip formula));
    ("enthalpy_of_formation_0K", VStr []);
    ("enthalpy_of_formation_298K", or_sentinel enthalpy_val);
    ("entropy_298K", or_sentinel entropy_val);
    ("gibbs_free_energy_298K", or_sentinel gibbs_val);
    ("phase", VStr (phase_of state));
    ("uncertainty_value", VStr []);
    ("molecular_mass", VStr []);
    ("molecular_mass_uncertainty", VStr []);
    ("cas_rn", VStr []);
    ("relative_rank", VStr []) ].

Definition _rows_to_records (t : table) : list record :=
  match t with
  | [] => []
  | header :: rows =>
    let cols := _find_columns header in
    if unset (formula cols) then []
    else flat_map (fun row => if has_content row then [row_record cols row] else [])
                  rows
  end.

(** ** The document and its extractors

    The libraries that read the PDF are outside the repository; a
    document is what they answer. *)

Inductive layout := lines_lines | lines_text | text_text.

Record page := {
  extract_tables : layout -> result (list (list (list (option str))));
  extract_text : result (option str)
}.

Record document := {
  camelot_installed : bool;
  camelot_lattice : result (list table);
  camelot_stream : result (list table);
  pdfplumber_installed : bool;
  pdfplumber_open : result (list page)
}.

Definition _extract_with_camelot (doc : document) : list table :=
  if camelot_installed doc then
    match camelot_lattice doc with
    | Raise _ => []
    | Ok tables =>
      if is_empty tables then
        match camelot_stream doc with
        | Raise _ => []
        | Ok stream_tables => stream_tables
        end
      else tables
    end
  else [].

(** Lines 65-71: the first strategy with a non-empty answer. *)
Fixpoint first_tables (p : page) (strategies : list layout)
  : list (list (list (option str))) :=
  match strategies with
  | [] => []
  | ts :: rest =>
    match extract_tables p ts with
    | Ok (t :: l) => t :: l
    | _ => first_tables p rest
    end
  end.

(** Lines 72-76. *)
Definition page_tables (p : page) : list table :=
  flat_map
    (fun tbl =>
       if is_empty tbl then []
       else [map (map (fun c => match c with Some s => s | None => [] end)) tbl])
    (first_tables p [lines_lines; lines_text; text_text]).

(** An error while the document is opened is not caught. *)
Definition _extract_with_pdfplumber (doc : document) : result (list table) :=
  if pdfplumber_installed doc then
    match pdfplumber_open doc with
    | Raise e => Raise e
    | Ok pages => Ok (flat_map page_tables pages)
    end
  else Ok [].

(** [x or ""] for the result of a coercion. *)
Definition truthy_or_sentinel (o : option float) : value :=
  match o with
  | Some f => if float_truthy f then VFloat f else sentinel
  | None => sentinel
  end.

Definition is_some {A : Type} (o : option A) : bool :=
  match o with Some _ => true | None => false end.

(** Line 174: [parts = re.split(r"\s{2,}", ln.strip())] *)
Definition segments (ln : str) : list str := re_split_ws 2 (strip ln).

(** Line 178: [nums = [p for p in parts[1:] if _safe_float(p) is not None]] *)
Definition numeric_segments (parts : list str) : list str :=
  filter (fun p => is_some (_safe_float (Some p))) (tl parts).

(** Lines 174-194 for one non-blank line. *)
Definition scrape_line (ln : str) : list record :=
  let parts := segments ln in
  if (List.length parts <? 3)%nat then []
  else
    let nums := numeric_segments parts in
    if (1 <=? List.length nums)%nat then
      [ [ ("common_name", VStr []);
          ("structure", VStr (nth 0 parts []));
          ("phase", VStr []);
          ("enthalpy_of_formation_0K", VStr []);
          ("enthalpy_of_formation_298K",
           truthy_or_sentinel (_safe_float (Some (nth 0 nums []))));
          ("entropy_298K",
           if (1 <? List.length nums)%nat
           then of_float (_safe_float (Some (nth 1 nums []))) else VStr []);
          ("gibbs_free_energy_298K",
           if (2 <? List.length nums)%nat
           then of_float (_safe_float (Some (nth 2 nums []))) else VStr []);
          ("uncertainty_value", VStr []);
          ("molecular_mass", VStr []);
          ("molecular_mass_uncertainty", VStr []);
          ("cas_rn", VStr []);
          ("relative_rank", VStr []) ] ]
    else [].

(** Lines 170-194 for the text of one page. *)
Definition scrape_text (text : str) : list record :=
  flat_map scrape_line
           (filter (fun ln => negb (is_empty (strip ln))) (splitlines text)).

(** The loop over the pages: when a page raises, the records appended so
    far stay in [all_records]; the flag tells whether the loop ended. *)
Fixpoint scrape_pages (pages : list page) : list record * bool :=
  match pages with
  | [] => ([], true)
  | p :: ps =>
    match extract_text p with
    | Raise _ => ([], false)
    | Ok text =>
      let (recs, ok) := scrape_pages ps in
      (scrape_text (match text with Some t => t | None => [] end) ++ recs, ok)
    end
  end.

Inductive log :=
| camelot_tables (n : nat)
| pdfplumber_tables (n : nat)
| records_after_tables (n : nat)
| records_after_text_scrape (n : nat)
| text_scrape_failed.

(** Lines 165-197. *)
Definition text_scrape (doc : document) : list record * list log :=
  if pdfplumber_installed doc then
    match pdfplumber_open doc with
    | Raise _ => ([], [text_scrape_failed])
    | Ok pages =>
      let (recs, ok) := scrape_pages pages in
      (recs, if ok then [records_after_text_scrape (List.length recs)]
             else [text_scrape_failed])
    end
  else ([], [text_scrape_failed]).

(** Lines 159-197, once the tables are known. *)
Definition records_of_tables (doc : document) (tables : list table)
           (logs : list log) : list record * list log :=
  let all_records := flat_map _rows_to_records tables in
  let logs := logs ++ [records_after_tables (List.length all_records)] in
  if is_empty all_records then
    let (recs, scrape_logs) := text_scrape doc in (recs, logs ++ scrape_logs)
  else (all_records, logs).

Definition parse_pdf_to_json (doc : document)
  : result (list record * list log) :=
  let tables := _extract_with_camelot doc in
  let logs := [camelot_tables (List.length tables)] in
  if is_empty tables then
    match _extract_with_pdfplumber doc with
    | Raise e => Raise e
    | Ok tables =>
      Ok (records_of_tables doc tables
            (logs ++ [pdfplumber_tables (List.length tables)]))
    end
  else Ok (records_of_tables doc tables logs).

End Pdf.

(* ================================================================== *)
(** * Notions used in the statements                                   *)
(* ================================================================== *)

(** A text that does not start with white space. *)
Definition clean_head (s : str) : Prop :=
  match s with
  | c :: _ => isspace c = false
  | [] => True
  end.

(** A record with exactly the keys [ks], in any order, none of them
    holding [None]. *)
Definition well_formed (ks : list string) (r : record) : Prop :=
  Permutation (keys r) ks /\ ~ In VNone (values r).

(** No [n] white-space characters in a row in [s], when [run] of them
    stand just before [s]. *)
Fixpoint short_runs (n run : nat) (s : str) : bool :=
  match s with
  | [] => true
  | c :: r =>
    if isspace c then (S run <? n)%nat && short_runs n (S run) r
    else short_runs n 0 r
  end.

(** The length of the white-space run that ends [s], when [run] of them
    stand just before [s]. *)
Fixpoint end_run (run : nat) (s : str) : nat :=
  match s with
  | [] => run
  | c :: r => if isspace c then end_run (S run) r else end_run 0 r
  end.

(** [cut_at_runs n s segs]: the text [s] is the segments [segs] with a
    run of at least [n] white-space characters between neighbours; no
    segment holds [n] white-space characters in a row, and the runs are
    maximal (no segment touches a run with a white-space character). *)
Inductive cut_at_runs (n : nat) : str -> list str -> Prop :=
| cut_last : forall seg,
    short_runs n 0 seg = true ->
    cut_at_runs n seg [seg]
| cut_next : forall seg run rest segs,
    short_runs n 0 seg = true ->
    clean_head (rev seg) ->
    forallb isspace run = true ->
    (n <= List.length run)%nat ->
    clean_head rest ->
    cut_at_runs n rest segs ->
    cut_at_runs n (seg ++ run ++ rest) (seg :: segs).

(** A character that is not white space; a line that is not blank. *)
Definition nonspace (c : codepoint) : bool := negb (isspace c).
Definition nonblank (ln : str) : bool := negb (is_empty (strip ln)).

(** The index of the first item of [l] that satisfies [p], or [-1]. *)
Definition first_index (p : str -> bool) (l : list str) : Z :=
  match Md.find_index p l with
  | Some k => Z.of_nat k
  | None => (-1)%Z
  end.

(** The values the key [phase] can take. *)
Definition phases : list str :=
  [u "gas"; u "liquid"; u "solid"; u "aqueous"; []].

(** The text of a page as the scrape reads it. *)
Definition page_text (p : Pdf.page) : str :=
  match Pdf.extract_text p with
  | Ok (Some t) => t
  | _ => []
  end.

(** A document whose ruled tables are [tables] and that cannot be opened
    by the second library. *)
Definition table_document (tables : list Pdf.table) : Pdf.document :=
  {| Pdf.camelot_installed := true;
     Pdf.camelot_lattice := Ok tables;
     Pdf.camelot_stream := Raise LibraryError;
     Pdf.pdfplumber_installed := true;
     Pdf.pdfplumber_open := Raise LibraryError |}.

(** A page whose text cannot be extracted. *)
Definition broken_page : Pdf.page :=
  {| Pdf.extract_tables := fun _ => Raise LibraryError;
     Pdf.extract_text := Raise LibraryError |}.

(** A document of the given pages, without the first library. *)
Definition paged_document (pages : list Pdf.page) : Pdf.document :=
  {| Pdf.camelot_installed := false;
     Pdf.camelot_lattice := Ok [];
     Pdf.camelot_stream := Ok [];
     Pdf.pdfplumber_installed := true;
     Pdf.pdfplumber_open := Ok pages |}.

(** Shapes of values: a text, a float or the sentinel, an integer or the
    sentinel. *)
Definition is_text (v : option value) : Prop := exists s, v = Some (VStr s).
Definition float_or_sentinel (v : option value) : Prop :=
  v = Some sentinel \/ exists f, v = Some (VFloat f).
Definition int_or_sentinel (v : option value) : Prop :=
  v = Some sentinel \/ exists n, v = Some (VInt n).

(** What a record of the PDF script looks like. *)
Definition pdf_shape (r : record) : Prop :=
  get "common_name" r = Some sentinel
  /\ is_text (get "structure" r)
  /\ get "enthalpy_of_formation_0K" r = Some sentinel
  /\ float_or_sentinel (get "enthalpy_of_formation_298K" r)
  /\ float_or_sentinel (get "entropy_298K" r)
  /\ float_or_sentinel (get "gibbs_free_energy_298K" r)
  /\ (exists p, In p phases /\ get "phase" r = Some (VStr p))
  /\ get "uncertainty_value" r = Some sentinel
  /\ get "molecular_mass" r = Some sentinel
  /\ get "molecular_mass_uncertainty" r = Some sentinel
  /\ get "cas_rn" r = Some sentinel
  /\ get "relative_rank" r = Some sentinel.

(** What a record of the markdown script looks like. *)
Definition md_shape (r : record) : Prop :=
  is_text (get "common_name" r)
  /\ is_text (get "structure" r)
  /\ float_or_sentinel (get "enthalpy_of_formation_0K" r)
  /\ float_or_sentinel (get "enthalpy_of_formation_298K" r)
  /\ float_or_sentinel (get "uncertainty_value" r)
  /\ float_or_sentinel (get "molecular_mass" r)
  /\ float_or_sentinel (get "molecular_mass_uncertainty" r)
  /\ is_text (get "cas_rn" r)
  /\ int_or_sentinel (get "relative_rank" r).

(** A page without ruled or unruled tables whose text is [text]. *)
Definition text_page (text : str) : Pdf.page :=
  {| Pdf.extract_tables := fun _ => Ok [];
     Pdf.extract_text := Ok (Some text) |}.

(** A document in which neither table extractor finds a table. *)
Definition text_document (pages : list str) : Pdf.document :=
  {| Pdf.camelot_installed := true;
     Pdf.camelot_lattice := Ok [];
     Pdf.camelot_stream := Ok [];
     Pdf.pdfplumber_installed := true;
     Pdf.pdfplumber_open := Ok (map text_page pages) |}.

(** Turns tests on code points into linear arithmetic. *)
Ltac codepoint_arith :=
  repeat rewrite ?orb_true_iff, ?andb_true_iff, ?orb_false_iff,
    ?andb_false_iff, ?negb_true_iff, ?negb_false_iff,
    ?N.leb_le, ?N.leb_gt, ?N.ltb_lt, ?N.ltb_ge, ?N.eqb_eq, ?N.eqb_neq in *;
  lia.

(* ================================================================== *)
(** * Properties                                                       *)
(* ================================================================== *)

Local Open Scope float_scope.
Local Open Scope N_scope.
Local Open Scope list_scope.

(** ** Worked examples of the markdown decoder *)

(** C2.  Whatever the species-name line, the data text
    ["H2 -241.8 0.0 ± 0.1 kJ/mol 2.016 7732-18-5*1"] decodes to structure
    [H2], enthalpies [-241.8] and [0.0], uncertainty [0.1], molecular
    mass [2.016], CAS number [7732-18-5] and relative rank [1]. *)
Theorem C2_markdown_decoder_example : forall line1 : str,
  Md.parse_record line1 (u "H2 -241.8 0.0 ± 0.1 kJ/mol 2.016 7732-18-5*1") =
  Some [ ("common_name", of_str (or_none (strip line1)));
         ("structure", VStr (u "H2"));
         ("enthalpy_of_formation_0K", VFloat (-241.8));
         ("enthalpy_of_formation_298K", VFloat 0.0);
         ("uncertainty_value", VFloat 0.1);
         ("molecular_mass", VFloat 2.016);
         ("molecular_mass_uncertainty", VNone);
         ("cas_rn", VStr (u "7732-18-5"));
         ("relative_rank", VInt 1) ].
Proof.
  intro line1. unfold Md.parse_record.
  generalize (or_none (strip line1)) as species_name.
  intro species_name. vm_compute. reflexivity.
Qed.

(** C5.  The splitter sends ["50-00-0*3"] to the CAS number ["50-00-0"]
    with rank [3]; ["50-00-0"], which matches the bare CAS pattern, to
    itself without a rank; and ["not-a-cas"] to nothing at all. *)
Theorem C5_cas_relative_splitter :
  Md._split_cas_and_relative (u "50-00-0*3") = (Some (u "50-00-0"), Some 3%Z)
  /\ re_fullmatch cas_pattern (u "50-00-0") = true
  /\ Md._split_cas_and_relative (u "50-00-0") = (Some (u "50-00-0"), None)
  /\ Md._split_cas_and_relative (u "not-a-cas") = (None, None).
Proof. split; [|split; [|split]]; vm_compute; reflexivity. Qed.

(** ** Facts about [strip] *)

Lemma lstrip_fixed : forall s, clean_head s -> lstrip s = s.
Proof.
  intros [|c r] H; [reflexivity|].
  simpl in *. now rewrite H.
Qed.

Lemma lstrip_clean_head : forall s, clean_head (lstrip s).
Proof.
  induction s as [|c r IH]; simpl; [exact I|].
  destruct (isspace c) eqn:E; [exact IH | exact E].
Qed.

Lemma lstrip_suffix : forall s, exists p, s = p ++ lstrip s.
Proof.
  induction s as [|c r [p Hp]]; simpl.
  - now exists [].
  - destruct (isspace c).
    + exists (c :: p). simpl. now f_equal.
    + now exists [].
Qed.

Lemma clean_head_app : forall a b, a <> [] -> clean_head (a ++ b) -> clean_head a.
Proof. intros [|c a] b Ha H; [congruence | exact H]. Qed.

Lemma rstrip_clean_head : forall s, clean_head s -> clean_head (rstrip s).
Proof.
  intros s Hs. unfold rstrip.
  destruct (lstrip_suffix (rev s)) as [p Hp].
  destruct (lstrip (rev s)) as [|d ds] eqn:E; [exact I|].
  apply (f_equal (@rev codepoint)) in Hp.
  rewrite rev_involutive, rev_app_distr in Hp.
  apply clean_head_app with (b := rev p).
  - intro H. apply (f_equal (@List.length codepoint)) in H.
    rewrite length_rev in H. discriminate H.
  - now rewrite <- Hp.
Qed.

Lemma strip_fixed : forall s, clean_head s -> clean_head (rev s) -> strip s = s.
Proof.
  intros s H1 H2. unfold strip, rstrip.
  rewrite (lstrip_fixed s H1), (lstrip_fixed (rev s) H2).
  apply rev_involutive.
Qed.

Lemma strip_clean : forall s, clean_head (strip s) /\ clean_head (rev (strip s)).
Proof.
  intro s. split.
  - apply rstrip_clean_head, lstrip_clean_head.
  - unfold strip, rstrip. rewrite rev_involutive. apply lstrip_clean_head.
Qed.

Lemma strip_idempotent : forall s, strip (strip s) = strip s.
Proof. intro s. apply strip_fixed; apply strip_clean. Qed.

Lemma clean_head_no_space : forall s,
  forallb (fun c => negb (isspace c)) s = true -> clean_head s.
Proof.
  intros [|c r] H; simpl in *; [exact I|].
  apply andb_prop in H. destruct H as [H _].
  now apply negb_true_iff in H.
Qed.

Lemma forallb_rev : forall (A : Type) (p : A -> bool) (l : list A),
  forallb p l = true -> forallb p (rev l) = true.
Proof.
  intros A p l H. rewrite forallb_forall in *.
  intros x Hx. apply H. now apply in_rev.
Qed.

Lemma strip_no_space : forall s,
  forallb (fun c => negb (isspace c)) s = true -> strip s = s.
Proof.
  intros s H. apply strip_fixed; apply clean_head_no_space; [exact H|].
  now apply forallb_rev.
Qed.

(** ** Facts about filters *)



Lemma forallb_impl : forall (A : Type) (p q : A -> bool) (l : list A),
  (forall x, p x = true -> q x = true) ->
  forallb p l = true -> forallb q l = true.
Proof.
  intros A p q l Hpq H. rewrite forallb_forall in *. auto.
Qed.

Lemma numeric_char_not_space : forall c,
  Pdf.numeric_char c = true -> negb (isspace c) = true.
Proof.
  intros c H. unfold Pdf.numeric_char, is_ascii_digit, isspace in *.
  codepoint_arith.
Qed.

Lemma numeric_char_not_comma : forall c,
  Pdf.numeric_char c = true -> negb (c =? COMMA) = true.
Proof.
  intros c H. unfold Pdf.numeric_char, is_ascii_digit, COMMA in *.
  codepoint_arith.
Qed.

(** ** Numeric coercion *)



Lemma pdf_safe_float_cleaned : forall s,
  Pdf._safe_float (Some s) = Md._safe_float (Some (Pdf.cleaned s)).
Proof.
  intro s. unfold Pdf._safe_float, Pdf.cleaned.
  destruct (strip s) as [|c r] eqn:E; reflexivity.
Qed.

(** ** The string form of a number *)















(** C4.  Both coercions answer [None] for [None], for the empty string
    (the PDF one for every blank string) and whenever [float] raises on
    the text they hand to it; being functions into [option float], they
    answer on every input. *)
Theorem C4_safe_float_absent_on_failure :
  Md._safe_float None = None
  /\ Md._safe_float (Some []) = None
  /\ (forall s e, py_float (Some s) = Raise e -> Md._safe_float (Some s) = None)
  /\ Pdf._safe_float None = None
  /\ (forall s, strip s = [] -> Pdf._safe_float (Some s) = None)
  /\ (forall s e, py_float (Some (Pdf.cleaned s)) = Raise e ->
                  Pdf._safe_float (Some s) = None).
Proof.
  split; [|split; [|split; [|split; [|split]]]].
  - reflexivity.
  - vm_compute. reflexivity.
  - intros s e H. unfold Md._safe_float. now rewrite H.
  - reflexivity.
  - intros s H. unfold Pdf._safe_float. now rewrite H.
  - intros s e H. rewrite pdf_safe_float_cleaned.
    unfold Md._safe_float. now rewrite H.
Qed.

Lemma C4_safe_float_absent_on_failure_witness :
  Md._safe_float (Some (u "kJ/mol")) = None
  /\ Pdf._safe_float (Some (u "   ")) = None
  /\ Pdf._safe_float (Some (u "kJ/mole")) = None.
Proof.
  destruct C4_safe_float_absent_on_failure as (_ & _ & Hmd & _ & Hblank & Hpdf).
  split; [|split].
  - apply (Hmd (u "kJ/mol") ValueError). vm_compute. reflexivity.
  - apply (Hblank (u "   ")). vm_compute. reflexivity.
  - apply (Hpdf (u "kJ/mole") ValueError). vm_compute. reflexivity.
Defined.

(** ** Column detection *)

Lemma visit_from_formula_unset : forall norm i cols,
  Pdf.formula cols = (-1)%Z ->
  (forall h, In h norm -> Pdf.is_formula h = false) ->
  Pdf.formula (Pdf.visit_from i norm cols) = (-1)%Z.
Proof.
  induction norm as [|h norm IH]; intros i cols Hcols Hnorm; simpl.
  - exact Hcols.
  - apply IH.
    + simpl. rewrite (Hnorm h (in_eq h norm)), andb_false_r. exact Hcols.
    + intros h' Hh'. apply Hnorm. now right.
Qed.

(** C8.  A table whose header has no cell that normalises to a formula
    heading (one that contains "formula", or is "species" or "name")
    gives no record, whatever its rows. *)
Theorem C8_no_formula_column_no_records : forall header rows,
  (forall cell, In cell header ->
                Pdf.is_formula (Pdf._normalize_header cell) = false) ->
  Pdf._rows_to_records (header :: rows) = [].
Proof.
  intros header rows H. unfold Pdf._rows_to_records, Pdf._find_columns.
  rewrite visit_from_formula_unset.
  - reflexivity.
  - reflexivity.
  - intros h Hh. apply in_map_iff in Hh. destruct Hh as [cell [<- Hcell]].
    now apply H.
Qed.

Lemma C8_no_formula_column_no_records_witness :
  Pdf._rows_to_records
    [ [u "State"; u "Enthalpy (kJ/mol)"; u "Entropy"];
      [u "(g)"; u "-393.5"; u "213.8"] ] = [].
Proof.
  apply C8_no_formula_column_no_records.
  intros cell [<- | [<- | [<- | []]]]; vm_compute; reflexivity.
Defined.

(** ** The text scrape *)

Lemma get_cons : forall k k' v r,
  get k ((k', v) :: r) = if String.eqb k' k then Some v else get k r.
Proof.
  intros. unfold get. simpl. now destruct (String.eqb k' k).
Qed.

(** Reads a key of a record that is written out. *)
Ltac read_key :=
  repeat (rewrite get_cons;
          match goal with
          | |- context [String.eqb ?a ?b] =>
            let t := eval vm_compute in (String.eqb a b) in
            change (String.eqb a b) with t
          end;
          cbv iota).

(** C10.  In the text scrape, when the first numeric segment of a line
    parses to a zero the record holds the sentinel for
    [enthalpy_of_formation_298K]; when it parses to any other float the
    record holds that float. *)
Theorem C10_zero_enthalpy_becomes_sentinel : forall ln n0 others f,
  (3 <= List.length (Pdf.segments ln))%nat ->
  Pdf.numeric_segments (Pdf.segments ln) = n0 :: others ->
  Pdf._safe_float (Some n0) = Some f ->
  exists rec,
    Pdf.scrape_line ln = [rec]
    /\ (PrimFloat.eqb f 0 = true ->
        get "enthalpy_of_formation_298K" rec = Some sentinel)
    /\ (PrimFloat.eqb f 0 = false ->
        get "enthalpy_of_formation_298K" rec = Some (VFloat f)).
Proof.
  intros ln n0 others f Hlen Hnums Hf. unfold Pdf.scrape_line.
  apply Nat.ltb_ge in Hlen. rewrite Hlen, Hnums.
  cbn [List.length Nat.leb nth]. rewrite Hf.
  eexists. split; [reflexivity|].
  unfold Pdf.truthy_or_sentinel, float_truthy, zero.
  split; intro Hz; read_key; now rewrite Hz.
Qed.

Lemma C10_zero_enthalpy_becomes_sentinel_witness :
  exists rec,
    Pdf.scrape_line (u "H2  0.0  130.7") = [rec]
    /\ (PrimFloat.eqb 0 0 = true ->
        get "enthalpy_of_formation_298K" rec = Some sentinel)
    /\ (PrimFloat.eqb 0 0 = false ->
        get "enthalpy_of_formation_298K" rec = Some (VFloat 0)).
Proof.
  apply (C10_zero_enthalpy_becomes_sentinel
           (u "H2  0.0  130.7") (u "0.0") [u "130.7"] 0%float).
  - vm_compute. lia.
  - vm_compute. reflexivity.
  - vm_compute. reflexivity.
Defined.

(** ** Splitting at runs of white space *)

Lemma short_runs_app : forall n a k b,
  short_runs n k (a ++ b) = short_runs n k a && short_runs n (end_run k a) b.
Proof.
  induction a as [|c a IH]; intros k b; simpl; [reflexivity|].
  destruct (isspace c).
  - rewrite IH. now rewrite andb_assoc.
  - apply IH.
Qed.

Lemma end_run_snoc : forall a k c,
  end_run k (a ++ [c]) = if isspace c then S (end_run k a) else 0%nat.
Proof.
  induction a as [|x a IH]; intros k c; simpl.
  - now destruct (isspace c).
  - destruct (isspace x); apply IH.
Qed.

Lemma end_run_rev_clean : forall cur,
  clean_head cur -> end_run 0 (rev cur) = 0%nat.
Proof.
  intros [|c cur] H; simpl in *; [reflexivity|].
  rewrite end_run_snoc. now rewrite H.
Qed.

Lemma short_runs_spaces : forall n w k,
  forallb isspace w = true -> (k + List.length w < n)%nat ->
  short_runs n k w = true.
Proof.
  induction w as [|c w IH]; intros k Hw Hlen; simpl in *; [reflexivity|].
  apply andb_prop in Hw. destruct Hw as [Hc Hw]. rewrite Hc.
  apply andb_true_intro. split.
  - apply Nat.ltb_lt. lia.
  - apply IH; [exact Hw | lia].
Qed.

Lemma short_runs_snoc : forall n a c,
  isspace c = false -> short_runs n 0 a = true ->
  short_runs n 0 (a ++ [c]) = true.
Proof.
  intros n a c Hc Ha. rewrite short_runs_app, Ha. simpl. now rewrite Hc.
Qed.

Lemma short_runs_pending : forall n cur pend,
  clean_head cur -> short_runs n 0 (rev cur) = true ->
  forallb isspace pend = true -> (List.length pend < n)%nat ->
  short_runs n 0 (rev cur ++ rev pend) = true.
Proof.
  intros n cur pend Hcur Hshort Hpend Hlen.
  rewrite short_runs_app, Hshort, (end_run_rev_clean cur Hcur). simpl.
  apply short_runs_spaces.
  - now apply forallb_rev.
  - rewrite length_rev. lia.
Qed.

Lemma split_ws_runs_cut : forall n s cur pend,
  clean_head cur -> short_runs n 0 (rev cur) = true ->
  forallb isspace pend = true ->
  cut_at_runs n (rev cur ++ rev pend ++ s) (split_ws_runs n cur pend s).
Proof.
  intro n. induction s as [|c r IH]; intros cur pend Hcur Hshort Hpend.
  - rewrite app_nil_r. simpl. destruct pend as [|p pend']; cbn [is_empty].
    + simpl. rewrite app_nil_r. now apply cut_last.
    + destruct (n <=? List.length (p :: pend'))%nat eqn:E.
      * rewrite <- (app_nil_r (rev (p :: pend'))). apply cut_next; auto.
        -- now rewrite rev_involutive.
        -- now apply forallb_rev.
        -- rewrite length_rev. now apply Nat.leb_le.
        -- exact I.
        -- now apply cut_last.
      * rewrite rev_app_distr. apply cut_last.
        apply short_runs_pending; auto. now apply Nat.leb_gt.
  - simpl. destruct (isspace c) eqn:Ec.
    + specialize (IH cur (c :: pend) Hcur Hshort).
      simpl in IH. rewrite Ec, Hpend in IH. specialize (IH eq_refl).
      now rewrite <- app_assoc in IH.
    + destruct pend as [|p pend']; cbn [is_empty].
      * specialize (IH (c :: cur) []). simpl in IH.
        rewrite <- app_assoc in IH. apply IH; auto.
        now apply short_runs_snoc.
      * remember (p :: pend') as w eqn:Ew. clear Ew p pend'.
        destruct (n <=? List.length w)%nat eqn:E.
        -- apply cut_next; auto.
           ++ now rewrite rev_involutive.
           ++ now apply forallb_rev.
           ++ rewrite length_rev. now apply Nat.leb_le.
           ++ apply (IH [c] []); [exact Ec | | reflexivity].
              simpl. now rewrite Ec.
        -- assert (Etext : rev (c :: w ++ cur) ++ rev [] ++ r
                           = rev cur ++ rev w ++ c :: r).
           { cbn [rev app]. rewrite rev_app_distr, <- !app_assoc.
             reflexivity. }
           rewrite <- Etext. apply IH; [exact Ec | | reflexivity].
           cbn [rev]. apply short_runs_snoc; [exact Ec|].
           rewrite rev_app_distr.
           apply short_runs_pending; auto. now apply Nat.leb_gt.
Qed.

(** [re.split(r"\s{n,}", s)] cuts [s] at its runs of at least [n]
    white-space characters. *)
Lemma re_split_ws_cut : forall n s, cut_at_runs n s (re_split_ws n s).
Proof.
  intros n s. apply (split_ws_runs_cut n s [] []); auto. exact I.
Qed.

(** C7.  The text scrape takes the non-blank lines of the text and cuts
    each, stripped, at its runs of two or more white-space characters; it
    skips a line with fewer than three
    segments and a line without a numeric segment after the first; and
    the line ["CO2  -393.5  213.8  -394.4"] gives a record with structure
    [CO2], enthalpy [-393.5], entropy [213.8] and Gibbs energy [-394.4],
    also as the only text of a document without tables. *)
Theorem C7_text_scrape_fallback :
  (forall ln, cut_at_runs 2 (strip ln) (Pdf.segments ln))
  /\ (forall text,
         Pdf.scrape_text text =
         flat_map Pdf.scrape_line
                  (filter (fun ln => negb (is_empty (strip ln)))
                          (splitlines text)))
  /\ (forall ln, (List.length (Pdf.segments ln) < 3)%nat ->
                 Pdf.scrape_line ln = [])
  /\ (forall ln, Pdf.numeric_segments (Pdf.segments ln) = [] ->
                 Pdf.scrape_line ln = [])
  /\ Pdf.segments (u "CO2  -393.5  213.8  -394.4") =
     [u "CO2"; u "-393.5"; u "213.8"; u "-394.4"]
  /\ Pdf.scrape_line (u "CO2  -393.5  213.8  -394.4") =
     [ [ ("common_name", sentinel);
         ("structure", VStr (u "CO2"));
         ("phase", sentinel);
         ("enthalpy_of_formation_0K", sentinel);
         ("enthalpy_of_formation_298K", VFloat (-393.5));
         ("entropy_298K", VFloat 213.8);
         ("gibbs_free_energy_298K", VFloat (-394.4));
         ("uncertainty_value", sentinel);
         ("molecular_mass", sentinel);
         ("molecular_mass_uncertainty", sentinel);
         ("cas_rn", sentinel);
         ("relative_rank", sentinel) ] ]
  /\ Pdf.parse_pdf_to_json (text_document [u "CO2  -393.5  213.8  -394.4"]) =
     Ok (Pdf.scrape_line (u "CO2  -393.5  213.8  -394.4"),
         [ Pdf.camelot_tables 0; Pdf.pdfplumber_tables 0;
           Pdf.records_after_tables 0; Pdf.records_after_text_scrape 1 ]).
Proof.
  split; [|split; [|split; [|split; [|split; [|split]]]]].
  - intro ln. apply re_split_ws_cut.
  - reflexivity.
  - intros ln H. unfold Pdf.scrape_line.
    apply Nat.ltb_lt in H. now rewrite H.
  - intros ln H. unfold Pdf.scrape_line. rewrite H.
    now destruct (List.length (Pdf.segments ln) <? 3)%nat.
  - vm_compute. reflexivity.
  - vm_compute. reflexivity.
  - vm_compute. reflexivity.
Qed.

Lemma C7_text_scrape_fallback_witness :
  Pdf.scrape_line (u "CO2  -393.5") = []
  /\ Pdf.scrape_line (u "Species  Name  State") = [].
Proof.
  destruct C7_text_scrape_fallback as (_ & _ & Hshort & Hnum & _).
  split.
  - apply Hshort. vm_compute. lia.
  - apply Hnum. vm_compute. reflexivity.
Defined.

(** ** The CAS step of the markdown decoder *)

(** The last token of ["H2 1.0 2.0 50-00-0*3"] holds an asterisk and
    splits into a CAS number and a rank, but the positional steps have
    taken it as the molecular mass: the cursor is at the end and the
    record has neither CAS number nor rank. *)
Lemma C6_last_token_consumed_counterexample :
  let tokens := Md._tokenize_loose (u "H2 1.0 2.0 50-00-0*3") in
  has_char ASTERISK (last tokens []) = true
  /\ Md._split_cas_and_relative (last tokens []) = (Some (u "50-00-0"), Some 3%Z)
  /\ Md.idx (Md.decode_positional tokens) = List.length tokens
  /\ exists rec,
       Md.parse_record (u "Formaldehyde") (u "H2 1.0 2.0 50-00-0*3") = Some rec
       /\ get "cas_rn" rec = Some VNone
       /\ get "relative_rank" rec = Some VNone.
Proof.
  split; [|split; [|split]]; try (vm_compute; reflexivity).
  eexists. split; [vm_compute; reflexivity|].
  split; vm_compute; reflexivity.
Qed.

(** C6, as the code has it.  When the last token of the stream holds an
    asterisk, the record takes its CAS number and its rank from the split
    of that last token provided the positional cursor stopped before the
    end of the stream; when the positional steps consumed every token,
    both fields stay absent. *)
Theorem C6_cas_from_last_token : forall line1 line2 tokens,
  Md._tokenize_loose line2 = tokens ->
  tokens <> [] ->
  has_char ASTERISK (last tokens []) = true ->
  exists rec,
    Md.parse_record line1 line2 = Some rec
    /\ ((Md.idx (Md.decode_positional tokens) < List.length tokens)%nat ->
        get "cas_rn" rec =
          Some (of_str (fst (Md._split_cas_and_relative (last tokens []))))
        /\ get "relative_rank" rec =
          Some (of_int (snd (Md._split_cas_and_relative (last tokens [])))))
    /\ ((List.length tokens <= Md.idx (Md.decode_positional tokens))%nat ->
        get "cas_rn" rec = Some VNone /\ get "relative_rank" rec = Some VNone).
Proof.
  intros line1 line2 tokens Htok Hne Hstar. unfold Md.parse_record.
  rewrite Htok.
  destruct tokens as [|t ts] eqn:Etokens; [congruence|].
  rewrite <- Etokens in *. cbn [is_empty].
  replace (is_empty tokens) with false by (now rewrite Etokens).
  destruct (Md.step_cas tokens (Md.idx (Md.decode_positional tokens)))
    as [cas relative] eqn:Ecas.
  eexists. split; [reflexivity|].
  unfold Md.step_cas, Md.in_range in Ecas. rewrite Hstar in Ecas.
  split; intro Hidx.
  - apply Nat.ltb_lt in Hidx. rewrite Hidx in Ecas. rewrite Ecas.
    split; read_key; reflexivity.
  - apply Nat.ltb_ge in Hidx. rewrite Hidx in Ecas.
    injection Ecas as <- <-.
    split; read_key; reflexivity.
Qed.

Lemma C6_cas_from_last_token_witness :
  exists rec,
    Md.parse_record (u "Dihydrogen")
                    (u "H2 -241.8 0.0 ± 0.1 kJ/mol 2.016 7732-18-5*1") = Some rec
    /\ get "cas_rn" rec = Some (VStr (u "7732-18-5"))
    /\ get "relative_rank" rec = Some (VInt 1).
Proof.
  destruct (C6_cas_from_last_token
              (u "Dihydrogen")
              (u "H2 -241.8 0.0 ± 0.1 kJ/mol 2.016 7732-18-5*1")
              [u "H2"; u "-241.8"; u "0.0"; u "±"; u "0.1"; u "kJ/mol";
               u "2.016"; u "7732-18-5*1"])
    as (rec & Hrec & Hbefore & _).
  - vm_compute. reflexivity.
  - discriminate.
  - vm_compute. reflexivity.
  - exists rec. split; [exact Hrec|].
    assert (Hsplit : Md._split_cas_and_relative
                       (last [u "H2"; u "-241.8"; u "0.0"; u "±"; u "0.1";
                              u "kJ/mol"; u "2.016"; u "7732-18-5*1"] [])
                     = (Some (u "7732-18-5"), Some 1%Z))
      by (vm_compute; reflexivity).
    rewrite Hsplit in Hbefore. apply Hbefore.
    vm_compute. lia.
Defined.

(** ** The document scanner of the markdown script *)

(** Whatever holds of the records emitted for a species-name line that
    is stripped and not empty holds of every record of the scan. *)
Lemma scan_emitted : forall P : record -> Prop,
  (forall name data r,
      name <> [] -> strip name = name -> In r (Md.emit name data) -> P r) ->
  forall lines r, In r (Md.scan lines) -> P r.
Proof.
  intros P Hemit lines.
  assert (H : forall n lines, (List.length lines <= n)%nat ->
                              forall r, In r (Md.scan lines) -> P r).
  { clear lines. induction n as [|n IH]; intros [|ln rest] Hlen r Hin;
      simpl in Hlen; try lia; try (now destruct Hin).
    cbn [Md.scan] in Hin.
    destruct (is_empty (strip ln)) eqn:Eblank.
    - apply (IH rest); [lia | exact Hin].
    - assert (Hname : strip ln <> []) by (intro E; now rewrite E in Eblank).
      assert (Hrest : (List.length rest <= n)%nat) by lia.
      clear Hlen Eblank.
      match type of Hin with
      | In _ (?acc rest []) =>
        assert (Hacc : forall ls data, (List.length ls <= n)%nat ->
                                       In r (acc ls data) -> P r)
      end.
      { clear Hin Hrest rest.
        induction ls as [|l ls IHls]; intros data Hls Hin.
        - apply (Hemit (strip ln) data); auto using strip_idempotent.
        - simpl in Hls. simpl in Hin.
          destruct (is_empty (strip l)) eqn:El.
          + apply (IHls data); [lia | exact Hin].
          + destruct (Md.has_cas (strip l)) eqn:Ecas.
            * apply in_app_or in Hin. destruct Hin as [Hin | Hin].
              -- apply (Hemit (strip ln) (data ++ [strip l]));
                   auto using strip_idempotent.
              -- apply (IH ls); [lia | exact Hin].
            * apply (IHls (data ++ [strip l])); [lia | exact Hin]. }
      exact (Hacc rest [] Hrest Hin). }
  intros r Hin. exact (H (List.length lines) lines (Nat.le_refl _) r Hin).
Qed.

Lemma keys_sanitize : forall rec, keys (Md.sanitize rec) = keys rec.
Proof.
  intro rec. unfold keys, Md.sanitize. rewrite map_map. reflexivity.
Qed.

Lemma values_sanitize : forall rec, ~ In VNone (values (Md.sanitize rec)).
Proof.
  intros rec H. unfold values, Md.sanitize in H. rewrite map_map in H.
  apply in_map_iff in H. destruct H as [[k v] [H _]]. simpl in H.
  destruct v; discriminate H.
Qed.

Lemma parse_record_keys : forall line1 line2 rec,
  Md.parse_record line1 line2 = Some rec -> keys rec = Md.record_keys.
Proof.
  intros line1 line2 rec H. unfold Md.parse_record in H.
  destruct (is_empty (Md._tokenize_loose line2)); [discriminate|].
  destruct (Md.step_cas _ _) as [cas relative].
  injection H as <-. reflexivity.
Qed.

Lemma parse_record_common_name : forall line1 line2 rec,
  Md.parse_record line1 line2 = Some rec ->
  get "common_name" rec = Some (of_str (or_none (strip line1))).
Proof.
  intros line1 line2 rec H. unfold Md.parse_record in H.
  destruct (is_empty (Md._tokenize_loose line2)); [discriminate|].
  destruct (Md.step_cas _ _) as [cas relative].
  injection H as <-. reflexivity.
Qed.

Lemma get_sanitize : forall k rec v,
  get k rec = Some v ->
  get k (Md.sanitize rec) = Some (if is_none v then sentinel else v).
Proof.
  intros k rec v. unfold get, Md.sanitize.
  induction rec as [|[k' v'] rec IH]; simpl; [discriminate|].
  destruct (String.eqb k' k); simpl.
  - intro H. injection H as <-. reflexivity.
  - exact IH.
Qed.

Lemma emit_common_name : forall name data r,
  name <> [] -> strip name = name -> In r (Md.emit name data) ->
  get "common_name" r = Some (VStr name).
Proof.
  intros name data r Hne Hstrip Hin. unfold Md.emit in Hin.
  destruct (Md.parse_record name (join [SPACE] data)) as [rec|] eqn:E;
    [|now destruct Hin].
  destruct Hin as [<- | []].
  apply parse_record_common_name in E. rewrite Hstrip in E.
  apply get_sanitize in E. rewrite E.
  destruct name; [congruence | reflexivity].
Qed.

(** C9.  In the markdown pipeline no record with a null species name
    reaches the output: the scanner never takes an empty or
    white-space-only line for a species-name line, so every record of the
    output has a species name that is not empty, and a null line emits
    nothing whatever follows it (last part).  The drop is the scanner's:
    the decoder itself returns no record only when the data text has no
    token, and given a null species-name line and a data text with tokens
    it returns a record without common name, which the scanner never asks
    of it. *)
Theorem C9_species_name_never_null :
  (forall file_lines r,
      In r (Md.parse_file file_lines) ->
      exists name, name <> [] /\ get "common_name" r = Some (VStr name))
  /\ (forall line1 line2,
         strip line1 = [] -> Md._tokenize_loose line2 <> [] ->
         exists rec, Md.parse_record line1 line2 = Some rec
                     /\ get "common_name" rec = Some VNone)
  /\ (forall line1 line2,
         Md._tokenize_loose line2 = [] -> Md.parse_record line1 line2 = None)
  /\ (forall ln rest, strip ln = [] -> Md.scan (ln :: rest) = Md.scan rest).
Proof.
  split; [|split; [|split]].
  - intros file_lines r Hin. unfold Md.parse_file in Hin.
    eapply (scan_emitted
              (fun r => exists name,
                   name <> [] /\ get "common_name" r = Some (VStr name)));
      [|exact Hin].
    clear r Hin. intros name data r Hne Hstrip Hin. exists name.
    split; [exact Hne|]. now apply emit_common_name with (data := data).
  - intros line1 line2 Hnull Htok.
    destruct (Md.parse_record line1 line2) as [rec|] eqn:E.
    + exists rec. split; [reflexivity|].
      apply parse_record_common_name in E. now rewrite Hnull in E.
    + exfalso. unfold Md.parse_record in E.
      destruct (Md._tokenize_loose line2); [congruence|].
      cbn [is_empty] in E. destruct (Md.step_cas _ _). discriminate E.
  - intros line1 line2 Htok. unfold Md.parse_record. now rewrite Htok.
  - intros ln rest Hnull. cbn [Md.scan]. now rewrite Hnull.
Qed.

Lemma C9_species_name_never_null_witness :
  (exists name,
      name <> []
      /\ get "common_name"
             (hd [] (Md.parse_file
                       [u "Dihydrogen"; u "";
                        u "H2 -241.8 0.0 ± 0.1 kJ/mol 2.016 7732-18-5*1"]))
         = Some (VStr name))
  /\ (exists rec, Md.parse_record (u "  ") (u "H2 1.0") = Some rec
                  /\ get "common_name" rec = Some VNone)
  /\ Md.parse_record (u "Dihydrogen") (u "  ") = None
  /\ Md.scan [u "   "; u "H2 1.0 2.0"; u "Water"; u "H2O 3.0 4.0"]
     = Md.scan [u "H2 1.0 2.0"; u "Water"; u "H2O 3.0 4.0"].
Proof.
  destruct C9_species_name_never_null as (Hfile & Hnull & Hempty & Hskip).
  split; [|split; [|split]].
  - apply (Hfile [u "Dihydrogen"; u "";
                  u "H2 -241.8 0.0 ± 0.1 kJ/mol 2.016 7732-18-5*1"]).
    vm_compute. left. reflexivity.
  - apply Hnull; vm_compute; [reflexivity | discriminate].
  - apply Hempty. vm_compute. reflexivity.
  - apply Hskip. vm_compute. reflexivity.
Defined.

(** ** The key set of the emitted records *)

(** Splits a membership in a list that is written out. *)
Ltac each_member H :=
  repeat (destruct H as [H | H]; [try discriminate H|]); try contradiction.

Lemma row_record_well_formed : forall cols row,
  keys (Pdf.row_record cols row) = schema_keys
  /\ ~ In VNone (values (Pdf.row_record cols row)).
Proof.
  intros cols row. split; [reflexivity|].
  unfold values, Pdf.row_record. cbn [map snd]. intro H.
  each_member H; unfold Pdf.or_sentinel in H;
    destruct (Pdf._safe_float _); discriminate H.
Qed.

Lemma rows_to_records_well_formed : forall t r,
  In r (Pdf._rows_to_records t) -> well_formed schema_keys r.
Proof.
  intros [|header rows] r Hin; simpl in Hin; [contradiction|].
  destruct (Pdf.unset _); [contradiction|].
  apply in_flat_map in Hin. destruct Hin as [row [_ Hin]].
  destruct (Pdf.has_content row); [|contradiction].
  destruct Hin as [<- | []].
  destruct (row_record_well_formed (Pdf._find_columns header) row) as [Hk Hv].
  split; [now rewrite Hk | exact Hv].
Qed.

Lemma numeric_segment_parses : forall parts i,
  (i < List.length (Pdf.numeric_segments parts))%nat ->
  exists f,
    Pdf._safe_float (Some (nth i (Pdf.numeric_segments parts) [])) = Some f.
Proof.
  intros parts i Hi. pose proof (nth_In _ [] Hi) as Hin.
  unfold Pdf.numeric_segments in Hin at 2. apply filter_In in Hin.
  destruct Hin as [_ Hin].
  destruct (Pdf._safe_float _) as [f|]; [now exists f | discriminate Hin].
Qed.

Lemma scrape_line_well_formed : forall ln r,
  In r (Pdf.scrape_line ln) -> well_formed schema_keys r.
Proof.
  intros ln r Hin. unfold Pdf.scrape_line in Hin.
  destruct (List.length (Pdf.segments ln) <? 3)%nat; [contradiction|].
  destruct (1 <=? List.length _)%nat; [|contradiction].
  destruct Hin as [<- | []]. split.
  - cbn [keys map fst]. unfold schema_keys.
    do 2 apply perm_skip.
    apply (Permutation_middle
             [ "enthalpy_of_formation_0K"; "enthalpy_of_formation_298K";
               "entropy_298K"; "gibbs_free_energy_298K" ]).
  - unfold values. cbn [map snd]. intro H. each_member H.
    + unfold Pdf.truthy_or_sentinel in H.
      destruct (Pdf._safe_float _) as [f|]; [|discriminate H].
      destruct (float_truthy f); discriminate H.
    + destruct (1 <? List.length _)%nat eqn:E; [|discriminate H].
      apply Nat.ltb_lt in E.
      destruct (numeric_segment_parses _ _ E) as [f Hf].
      rewrite Hf in H. discriminate H.
    + destruct (2 <? List.length _)%nat eqn:E; [|discriminate H].
      apply Nat.ltb_lt in E.
      destruct (numeric_segment_parses _ _ E) as [f Hf].
      rewrite Hf in H. discriminate H.
Qed.

Lemma scrape_text_well_formed : forall text r,
  In r (Pdf.scrape_text text) -> well_formed schema_keys r.
Proof.
  intros text r Hin. unfold Pdf.scrape_text in Hin.
  apply in_flat_map in Hin. destruct Hin as [ln [_ Hin]].
  now apply scrape_line_well_formed with (ln := ln).
Qed.

Lemma scrape_pages_well_formed : forall pages r,
  In r (fst (Pdf.scrape_pages pages)) -> well_formed schema_keys r.
Proof.
  induction pages as [|p ps IH]; intros r Hin; simpl in Hin; [contradiction|].
  destruct (Pdf.extract_text p) as [text|e]; [|contradiction].
  destruct (Pdf.scrape_pages ps) as [recs ok]. simpl in *.
  apply in_app_or in Hin. destruct Hin as [Hin | Hin].
  - now apply scrape_text_well_formed in Hin.
  - now apply IH.
Qed.

Lemma text_scrape_well_formed : forall doc r,
  In r (fst (Pdf.text_scrape doc)) -> well_formed schema_keys r.
Proof.
  intros doc r Hin. unfold Pdf.text_scrape in Hin.
  destruct (Pdf.pdfplumber_installed doc); [|contradiction].
  destruct (Pdf.pdfplumber_open doc) as [pages|e]; [|contradiction].
  pose proof (scrape_pages_well_formed pages r) as H.
  destruct (Pdf.scrape_pages pages) as [recs ok]. now apply H.
Qed.

Lemma records_of_tables_well_formed : forall doc tables logs r,
  In r (fst (Pdf.records_of_tables doc tables logs)) ->
  well_formed schema_keys r.
Proof.
  intros doc tables logs r Hin. unfold Pdf.records_of_tables in Hin.
  destruct (is_empty (flat_map Pdf._rows_to_records tables)).
  - pose proof (text_scrape_well_formed doc r) as H.
    destruct (Pdf.text_scrape doc) as [recs scrape_logs]. now apply H.
  - simpl in Hin. apply in_flat_map in Hin. destruct Hin as [t [_ Hin]].
    now apply rows_to_records_well_formed with (t := t).
Qed.

Lemma emit_keys : forall name data r,
  In r (Md.emit name data) ->
  keys r = Md.record_keys /\ ~ In VNone (values r).
Proof.
  intros name data r Hin. unfold Md.emit in Hin.
  destruct (Md.parse_record name (join [SPACE] data)) as [rec|] eqn:E;
    [|contradiction].
  destruct Hin as [<- | []]. split.
  - rewrite keys_sanitize. now apply parse_record_keys in E.
  - apply values_sanitize.
Qed.

(** The markdown script emits a record of nine keys: [phase] (like
    [entropy_298K] and [gibbs_free_energy_298K]) is missing from it. *)
Lemma C1_markdown_record_lacks_keys :
  exists r,
    In r (Md.parse_file
            [u "Dihydrogen"; u "H2 -241.8 0.0 ± 0.1 kJ/mol 2.016 7732-18-5*1"])
    /\ get "phase" r = None
    /\ ~ Permutation (keys r) schema_keys.
Proof.
  eexists. split; [vm_compute; left; reflexivity|].
  split; [vm_compute; reflexivity|].
  intro H. apply Permutation_length in H. vm_compute in H. discriminate H.
Qed.

(** C1, as the code has it.  Every record of the PDF script has exactly
    the twelve keys of the schema and every record of the markdown script
    has exactly nine of them, the schema without [entropy_298K],
    [gibbs_free_energy_298K] and [phase]; in both, no key holds [None]:
    an absent value is the empty-value sentinel. *)
Theorem C1_emitted_key_sets :
  (forall doc recs logs r,
      Pdf.parse_pdf_to_json doc = Ok (recs, logs) -> In r recs ->
      well_formed schema_keys r)
  /\ (forall file_lines r,
         In r (Md.parse_file file_lines) ->
         keys r = Md.record_keys /\ ~ In VNone (values r))
  /\ Md.record_keys =
     filter (fun k => negb (existsb (String.eqb k)
                              ["entropy_298K"; "gibbs_free_energy_298K"; "phase"]))
            schema_keys.
Proof.
  split; [|split].
  - intros doc recs logs r Hrun Hin. unfold Pdf.parse_pdf_to_json in Hrun.
    destruct (is_empty (Pdf._extract_with_camelot doc)).
    + destruct (Pdf._extract_with_pdfplumber doc) as [tables|e];
        [|discriminate Hrun].
      injection Hrun as Hrun. apply (f_equal fst) in Hrun.
      cbn [fst] in Hrun. rewrite <- Hrun in Hin.
      eapply records_of_tables_well_formed. exact Hin.
    + injection Hrun as Hrun. apply (f_equal fst) in Hrun.
      cbn [fst] in Hrun. rewrite <- Hrun in Hin.
      eapply records_of_tables_well_formed. exact Hin.
  - intros file_lines r Hin. unfold Md.parse_file in Hin.
    eapply (scan_emitted
              (fun r => keys r = Md.record_keys /\ ~ In VNone (values r)));
      [|exact Hin].
    clear r Hin. intros name data r _ _ Hin.
    now apply emit_keys with (name := name) (data := data).
  - reflexivity.
Qed.

Lemma C1_emitted_key_sets_witness :
  well_formed schema_keys
    (hd [] (Pdf.scrape_line (u "CO2  -393.5  213.8  -394.4")))
  /\ (keys (hd [] (Md.parse_file
                     [u "Dihydrogen";
                      u "H2 -241.8 0.0 ± 0.1 kJ/mol 2.016 7732-18-5*1"]))
      = Md.record_keys
      /\ ~ In VNone
           (values (hd [] (Md.parse_file
                             [u "Dihydrogen";
                              u "H2 -241.8 0.0 ± 0.1 kJ/mol 2.016 7732-18-5*1"])))).
Proof.
  destruct C1_emitted_key_sets as (Hpdf & Hmd & _).
  split.
  - apply (Hpdf (text_document [u "CO2  -393.5  213.8  -394.4"])
                (Pdf.scrape_line (u "CO2  -393.5  213.8  -394.4"))
                [ Pdf.camelot_tables 0; Pdf.pdfplumber_tables 0;
                  Pdf.records_after_tables 0;
                  Pdf.records_after_text_scrape 1 ]).
    + vm_compute. reflexivity.
    + vm_compute. left. reflexivity.
  - apply (Hmd [u "Dihydrogen";
                u "H2 -241.8 0.0 ± 0.1 kJ/mol 2.016 7732-18-5*1"]).
    vm_compute. left. reflexivity.
Defined.

(* ================================================================== *)
(** * Further properties of the two scripts                            *)
(* ================================================================== *)

(** ** The tokenizer of the markdown script *)

Lemma str_eqb_eq : forall a b, str_eqb a b = true <-> a = b.
Proof.
  induction a as [|x a IH]; intros [|y b]; simpl; split; intro H;
    try reflexivity; try discriminate H.
  - apply andb_prop in H. destruct H as [Hx Ha].
    apply N.eqb_eq in Hx. apply IH in Ha. now subst.
  - injection H as -> ->. rewrite N.eqb_refl. now apply IH.
Qed.

Lemma has_char_In : forall c s, has_char c s = true <-> In c s.
Proof.
  intros c s. unfold has_char. rewrite existsb_exists. split.
  - intros [x [Hx E]]. apply N.eqb_eq in E. now subst.
  - intro H. exists c. split; [exact H | apply N.eqb_refl].
Qed.

Lemma has_char_false : forall c s, has_char c s = false <-> ~ In c s.
Proof.
  intros c s. rewrite <- has_char_In. now destruct (has_char c s).
Qed.

Lemma short_runs_one : forall s k,
  short_runs 1 k s = true -> forallb nonspace s = true.
Proof.
  induction s as [|c s IH]; intros k H; simpl in *; [reflexivity|].
  unfold nonspace at 1. destruct (isspace c); simpl in *.
  - discriminate H.
  - now apply IH with (k := 0%nat).
Qed.

Lemma cut_at_runs_segments : forall n s segs,
  cut_at_runs n s segs -> Forall (fun seg => short_runs n 0 seg = true) segs.
Proof.
  intros n s segs H. induction H; constructor; auto.
Qed.

Lemma split_keep_forall : forall (P : codepoint -> Prop) c s cur,
  Forall P cur -> Forall P s -> Forall (Forall P) (split_keep c cur s).
Proof.
  intros P c. induction s as [|x s IH]; intros cur Hcur Hs; simpl.
  - constructor; [now apply Forall_rev | constructor].
  - inversion Hs as [|? ? Hx Hs']; subst.
    destruct (x =? c) eqn:E.
    + apply N.eqb_eq in E. subst x.
      constructor; [now apply Forall_rev|].
      constructor; [now constructor|]. now apply IH.
    + apply IH; [now constructor | exact Hs'].
Qed.

Lemma split_keep_alone : forall c s cur,
  ~ In c cur ->
  Forall (fun p => p = [c] \/ ~ In c p) (split_keep c cur s).
Proof.
  intro c. induction s as [|x s IH]; intros cur Hcur; simpl.
  - constructor; [|constructor]. right. now rewrite <- in_rev.
  - destruct (x =? c) eqn:E.
    + constructor; [right; now rewrite <- in_rev|].
      constructor; [now left|]. apply IH. intros [].
    + apply IH. intros [H | H]; [|now apply Hcur].
      apply N.eqb_neq in E. now apply E.
Qed.

Lemma split_keep_concat : forall c s cur,
  List.concat (split_keep c cur s) = rev cur ++ s.
Proof.
  intro c. induction s as [|x s IH]; intro cur; simpl.
  - reflexivity.
  - destruct (x =? c) eqn:E.
    + apply N.eqb_eq in E. subst x. simpl. now rewrite IH.
    + rewrite IH. simpl. now rewrite <- app_assoc.
Qed.

(** X1.  Every token of the tokenizer is non-empty and free of white
    space, and a token that holds the plus-minus sign is that sign alone:
    a sign glued to a number is always split off. *)
Theorem X1_tokens_are_clean : forall text t,
  In t (Md._tokenize_loose text) ->
  t <> []
  /\ forallb nonspace t = true
  /\ (has_char PLUS_MINUS t = true -> t = [PLUS_MINUS]).
Proof.
  intros text t Hin. unfold Md._tokenize_loose in Hin.
  apply in_flat_map in Hin. destruct Hin as [x [Hx Hin]].
  assert (Hclean : forallb nonspace x = true).
  { pose proof (cut_at_runs_segments _ _ _ (re_split_ws_cut 1 (strip text))) as H.
    rewrite Forall_forall in H. apply short_runs_one with (k := 0%nat).
    now apply H. }
  destruct x as [|c x]; [contradiction|]. cbn [is_empty] in Hin.
  destruct (negb (str_eqb (c :: x) [PLUS_MINUS])
            && has_char PLUS_MINUS (c :: x)) eqn:E.
  - apply filter_In in Hin. destruct Hin as [Hin Hne].
    split; [now destruct t|]. split.
    + assert (Hx' : Forall (fun a => nonspace a = true) (c :: x))
        by (apply Forall_forall; now apply forallb_forall).
      pose proof (split_keep_forall _ PLUS_MINUS (c :: x) []
                    (Forall_nil _) Hx') as H.
      rewrite Forall_forall in H. specialize (H t Hin).
      apply forallb_forall. now apply Forall_forall.
    + intro Hpm. apply has_char_In in Hpm.
      pose proof (split_keep_alone PLUS_MINUS (c :: x) [] (fun f => f)) as H.
      rewrite Forall_forall in H. destruct (H t Hin) as [-> | Hno];
        [reflexivity | contradiction].
  - destruct Hin as [<- | []].
    split; [discriminate|]. split; [exact Hclean|].
    intro Hpm. rewrite Hpm, andb_true_r in E.
    apply negb_false_iff in E. now apply str_eqb_eq in E.
Qed.

Lemma X1_tokens_are_clean_witness :
  u "±" <> []
  /\ forallb nonspace (u "±") = true
  /\ (has_char PLUS_MINUS (u "±") = true -> u "±" = [PLUS_MINUS]).
Proof.
  apply (X1_tokens_are_clean (u "H2 -241.8 0.0 ±0.1")).
  vm_compute. do 3 right. left. reflexivity.
Defined.

Lemma split_ws_runs_one_concat : forall s cur pend,
  List.concat (split_ws_runs 1 cur pend s) = rev cur ++ filter nonspace s.
Proof.
  induction s as [|c s IH]; intros cur pend; simpl.
  - destruct pend; simpl; now rewrite ?app_nil_r.
  - unfold nonspace at 1. destruct (isspace c); simpl.
    + apply IH.
    + destruct pend as [|p pend]; simpl.
      * rewrite IH. simpl. now rewrite <- app_assoc.
      * now rewrite IH.
Qed.

Lemma filter_nonspace_lstrip : forall s,
  filter nonspace (lstrip s) = filter nonspace s.
Proof.
  induction s as [|c s IH]; simpl; [reflexivity|].
  unfold nonspace at 2. destruct (isspace c) eqn:E; simpl; [exact IH|].
  unfold nonspace at 1. now rewrite E.
Qed.

Lemma filter_nonspace_strip : forall s,
  filter nonspace (strip s) = filter nonspace s.
Proof.
  intro s. unfold strip, rstrip.
  rewrite filter_rev, filter_nonspace_lstrip, filter_rev, rev_involutive.
  apply filter_nonspace_lstrip.
Qed.

Lemma concat_nonempty : forall l : list str,
  List.concat (filter (fun p => negb (is_empty p)) l) = List.concat l.
Proof.
  induction l as [|p l IH]; simpl; [reflexivity|].
  destruct p; simpl; [exact IH | now rewrite IH].
Qed.

(** X2.  The tokenizer loses nothing but white space: the tokens, put
    together in order, are the text without its white-space
    characters. *)
Theorem X2_tokens_keep_the_text : forall text,
  List.concat (Md._tokenize_loose text) = filter nonspace text.
Proof.
  intro text. unfold Md._tokenize_loose.
  assert (Hraw : List.concat (re_split_ws 1 (strip text))
                 = filter nonspace text).
  { unfold re_split_ws. rewrite split_ws_runs_one_concat. simpl.
    apply filter_nonspace_strip. }
  rewrite <- Hraw. clear Hraw.
  induction (re_split_ws 1 (strip text)) as [|t raw IH]; simpl; [reflexivity|].
  rewrite concat_app, IH. f_equal.
  destruct t as [|c t]; [reflexivity|]. cbn [is_empty].
  destruct (negb (str_eqb (c :: t) [PLUS_MINUS])
            && has_char PLUS_MINUS (c :: t)).
  - rewrite concat_nonempty. apply split_keep_concat.
  - simpl. now rewrite app_nil_r.
Qed.

(** ** The CAS splitter and the positional decoder *)

Lemma split_first_found : forall c s a b,
  split_first c s = (a, Some b) -> s = a ++ c :: b /\ ~ In c a.
Proof.
  intro c. induction s as [|x s IH]; intros a b H; simpl in H.
  - discriminate H.
  - destruct (x =? c) eqn:E.
    + injection H as <- <-. apply N.eqb_eq in E. subst x. now split.
    + destruct (split_first c s) as [a' b'] eqn:Es.
      injection H as <- ->. destruct (IH a' b eq_refl) as [-> Hno].
      split; [reflexivity|]. intros [Hx | Hx]; [|now apply Hno].
      apply N.eqb_neq in E. now apply E.
Qed.

Lemma split_first_absent : forall c s a,
  split_first c s = (a, None) -> a = s /\ ~ In c s.
Proof.
  intro c. induction s as [|x s IH]; intros a H; simpl in H.
  - injection H as <-. now split.
  - destruct (x =? c) eqn:E; [discriminate H|].
    destruct (split_first c s) as [a' b'] eqn:Es.
    injection H as <- ->. destruct (IH a' eq_refl) as [-> Hno].
    split; [reflexivity|]. intros [Hx | Hx]; [|now apply Hno].
    apply N.eqb_neq in E. now apply E.
Qed.

Lemma lstrip_incl : forall s x, In x (lstrip s) -> In x s.
Proof.
  intros s x H. destruct (lstrip_suffix s) as [p Hp].
  rewrite Hp. apply in_or_app. now right.
Qed.

Lemma strip_incl : forall s x, In x (strip s) -> In x s.
Proof.
  intros s x H. unfold strip, rstrip in H.
  apply in_rev in H. apply lstrip_incl in H. apply in_rev in H.
  now apply lstrip_incl.
Qed.

Lemma or_none_some : forall s t, or_none s = Some t -> t = s /\ s <> [].
Proof.
  intros [|c s] t H; simpl in H; [discriminate H|].
  injection H as <-. split; [reflexivity | discriminate].
Qed.

(** X3.  A CAS number returned by the splitter is never empty, has no
    white space around it and holds no asterisk; and a token without
    asterisk never gets a relative rank. *)
Theorem X3_cas_is_clean :
  (forall token cas rel,
      Md._split_cas_and_relative token = (Some cas, rel) ->
      cas <> [] /\ strip cas = cas /\ has_char ASTERISK cas = false)
  /\ (forall token,
         has_char ASTERISK token = false ->
         snd (Md._split_cas_and_relative token) = None).
Proof.
  split.
  - intros token cas rel H. unfold Md._split_cas_and_relative in H.
    destruct (split_first ASTERISK (strip token)) as [a [b|]] eqn:E.
    + apply split_first_found in E. destruct E as [_ Hno].
      assert (Hcas : or_none (strip a) = Some cas)
        by (destruct (py_int (strip b)); now injection H as -> _).
      apply or_none_some in Hcas. destruct Hcas as [-> Hne].
      split; [exact Hne|]. split; [apply strip_idempotent|].
      apply has_char_false. intro Hin. apply Hno. now apply strip_incl.
    + apply split_first_absent in E. destruct E as [_ Hno].
      destruct (re_fullmatch cas_pattern (strip token)) eqn:Em;
        [|discriminate H].
      injection H as <- _. split; [|split].
      * intro Hnil. rewrite Hnil in Em. vm_compute in Em. discriminate Em.
      * apply strip_idempotent.
      * now apply has_char_false.
  - intros token Hno. unfold Md._split_cas_and_relative.
    destruct (split_first ASTERISK (strip token)) as [a [b|]] eqn:E.
    + exfalso. apply split_first_found in E. destruct E as [E _].
      apply has_char_false in Hno. apply Hno. apply strip_incl.
      rewrite E. apply in_or_app. right. now left.
    + now destruct (re_fullmatch cas_pattern (strip token)).
Qed.

Lemma X3_cas_is_clean_witness :
  (u "50-00-0" <> [] /\ strip (u "50-00-0") = u "50-00-0"
   /\ has_char ASTERISK (u "50-00-0") = false)
  /\ snd (Md._split_cas_and_relative (u "50-00-0")) = None.
Proof.
  destruct X3_cas_is_clean as [Hclean Hrank]. split.
  - apply (Hclean (u " 50-00-0 *3") (u "50-00-0") (Some 3%Z)).
    vm_compute. reflexivity.
  - apply Hrank. vm_compute. reflexivity.
Defined.

(** Reads the tests and the results of one step of the decoder. *)
Ltac step_cases H :=
  repeat match type of H with
         | context [if ?b then _ else _] => destruct b eqn:?
         | context [match ?o with Some _ => _ | None => _ end] =>
           destruct o eqn:?
         end;
  inversion H; subst; clear H;
  repeat match goal with
         | E : (_ <? _)%nat = true |- _ => apply Nat.ltb_lt in E
         | E : (_ <? _)%nat = false |- _ => apply Nat.ltb_ge in E
         | E : (_ && _)%bool = true |- _ => apply andb_prop in E; destruct E
         end.

Lemma step_float_cursor : forall tokens i v i',
  Md.step_float tokens i = (v, i') -> (i <= List.length tokens)%nat ->
  (i <= i' <= List.length tokens)%nat
  /\ ((i < List.length tokens)%nat -> i' = S i).
Proof.
  intros tokens i v i' H Hi. unfold Md.step_float, Md.in_range in H.
  step_cases H; lia.
Qed.

Lemma step_uncertainty_cursor : forall tokens i k v i',
  Md.step_uncertainty tokens i = (k, v, i') -> (i <= List.length tokens)%nat ->
  (i <= i' <= List.length tokens)%nat.
Proof.
  intros tokens i k v i' H Hi. unfold Md.step_uncertainty, Md.in_range in H.
  step_cases H; lia.
Qed.

Lemma step_units_cursor : forall k tokens i v i',
  Md.step_units k tokens i = (v, i') -> (i <= List.length tokens)%nat ->
  (i <= i' <= List.length tokens)%nat.
Proof.
  intros k tokens i v i' H Hi. unfold Md.step_units, Md.in_range in H.
  step_cases H; lia.
Qed.

Lemma step_mass_cursor : forall tokens i m v i',
  Md.step_mass tokens i = (m, v, i') -> (i <= List.length tokens)%nat ->
  (i <= i' <= List.length tokens)%nat
  /\ ((i < List.length tokens)%nat -> (S i <= i')%nat).
Proof.
  intros tokens i m v i' H Hi. unfold Md.step_mass, Md.in_range in H.
  step_cases H; lia.
Qed.

Lemma decode_positional_cursor : forall tokens,
  tokens <> [] ->
  (Nat.min 3 (List.length tokens) <= Md.idx (Md.decode_positional tokens)
   <= List.length tokens)%nat.
Proof.
  intros tokens Hne. unfold Md.decode_positional.
  assert (Hlen : (1 <= List.length tokens)%nat)
    by (destruct tokens; [congruence | simpl; lia]).
  destruct (Md.step_structure tokens) as [st i0] eqn:E0.
  assert (H0 : (i0 <= 1)%nat)
    by (unfold Md.step_structure in E0;
        destruct (Md._safe_float _); injection E0 as _ <-; lia).
  destruct (Md.step_float tokens i0) as [a i1] eqn:E1.
  apply step_float_cursor in E1; [|lia].
  destruct (Md.step_float tokens i1) as [b i2] eqn:E2.
  apply step_float_cursor in E2; [|lia].
  destruct (Md.step_uncertainty tokens i2) as [[k v] i3] eqn:E3.
  apply step_uncertainty_cursor in E3; [|lia].
  destruct (Md.step_units k tokens i3) as [un i4] eqn:E4.
  apply step_units_cursor in E4; [|lia].
  destruct (Md.step_mass tokens i4) as [[m mu] i5] eqn:E5.
  apply step_mass_cursor in E5; [|lia].
  cbn [Md.idx]. lia.
Qed.

(** X4.  The positional cursor never leaves the token stream and passes
    at least three tokens when there are that many; so a data text of at
    most three tokens never gets a CAS number or a relative rank, whatever
    its last token is. *)
Theorem X4_cursor_stays_in_the_stream :
  (forall tokens,
      tokens <> [] ->
      (Nat.min 3 (List.length tokens) <= Md.idx (Md.decode_positional tokens)
       <= List.length tokens)%nat)
  /\ (forall line1 line2 rec,
         Md.parse_record line1 line2 = Some rec ->
         (List.length (Md._tokenize_loose line2) <= 3)%nat ->
         get "cas_rn" rec = Some VNone /\ get "relative_rank" rec = Some VNone).
Proof.
  split; [exact decode_positional_cursor|].
  intros line1 line2 rec H Hlen. unfold Md.parse_record in H.
  destruct (Md._tokenize_loose line2) as [|t ts] eqn:Etok; [discriminate H|].
  cbn [is_empty] in H. rewrite <- Etok in *.
  assert (Hne : Md._tokenize_loose line2 <> []) by (rewrite Etok; discriminate).
  pose proof (decode_positional_cursor _ Hne) as Hidx.
  unfold Md.step_cas, Md.in_range in H.
  replace (Md.idx (Md.decode_positional (Md._tokenize_loose line2))
           <? List.length (Md._tokenize_loose line2))%nat with false in H
    by (symmetry; apply Nat.ltb_ge; lia).
  injection H as <-. split; read_key; reflexivity.
Qed.

Lemma X4_cursor_stays_in_the_stream_witness :
  (Nat.min 3 (List.length [u "H2"; u "1.0"; u "50-00-0*3"])
   <= Md.idx (Md.decode_positional [u "H2"; u "1.0"; u "50-00-0*3"])
   <= List.length [u "H2"; u "1.0"; u "50-00-0*3"])%nat
  /\ (exists rec,
         Md.parse_record (u "Formaldehyde") (u "H2 1.0 50-00-0*3") = Some rec
         /\ get "cas_rn" rec = Some VNone
         /\ get "relative_rank" rec = Some VNone).
Proof.
  destruct X4_cursor_stays_in_the_stream as [Hcursor Hcas]. split.
  - apply Hcursor. discriminate.
  - eexists. split; [vm_compute; reflexivity|].
    apply (Hcas (u "Formaldehyde") (u "H2 1.0 50-00-0*3")).
    + vm_compute. reflexivity.
    + vm_compute. lia.
Defined.

Lemma token_with_sign_is_sign : forall (text t : str),
  In t (Md._tokenize_loose text) -> In PLUS_MINUS t -> t = [PLUS_MINUS].
Proof.
  intros text t Hin Hpm. unfold Md._tokenize_loose in Hin.
  apply in_flat_map in Hin. destruct Hin as [x [_ Hin]].
  destruct x as [|c x]; [contradiction|]. cbn [is_empty] in Hin.
  destruct (negb (str_eqb (c :: x) [PLUS_MINUS])
            && has_char PLUS_MINUS (c :: x)) eqn:E.
  - apply filter_In in Hin. destruct Hin as [Hin _].
    pose proof (split_keep_alone PLUS_MINUS (c :: x) [] (fun f => f)) as H.
    rewrite Forall_forall in H.
    destruct (H t Hin) as [-> | Hno]; [reflexivity | contradiction].
  - destruct Hin as [<- | []].
    apply has_char_In in Hpm. rewrite Hpm, andb_true_r in E.
    apply negb_false_iff in E. now apply str_eqb_eq in E.
Qed.

Lemma startswith_sign : forall t,
  startswith [PLUS_MINUS] t = true -> In PLUS_MINUS t.
Proof.
  intros [|c t] H; cbn [startswith] in H; [discriminate H|].
  rewrite andb_true_r in H. apply N.eqb_eq in H. left. now symmetry.
Qed.

Lemma step_uncertainty_exact : forall tokens i v i',
  Md.step_uncertainty tokens i = (Some Md.exact, v, i') -> v = None.
Proof.
  intros tokens i v i' H. unfold Md.step_uncertainty in H.
  repeat match type of H with
         | context [if ?b then _ else _] => destruct b
         | context [match ?o with Some _ => _ | None => _ end] => destruct o
         end; now inversion H.
Qed.

Lemma step_uncertainty_value : forall (tokens : list str) i k v i',
  (forall t : str, In t tokens -> In PLUS_MINUS t -> t = [PLUS_MINUS]) ->
  Md.step_uncertainty tokens i = (k, Some v, i') ->
  k = Some Md.numeric
  /\ (S i < List.length tokens)%nat
  /\ nth i tokens [] = [PLUS_MINUS]
  /\ Md._safe_float (Some (nth (S i) tokens [])) = Some v.
Proof.
  intros tokens i k v i' Hclean H.
  unfold Md.step_uncertainty, Md.in_range, Md.tok in H.
  destruct (i <? List.length tokens)%nat eqn:Ei; [|discriminate H].
  apply Nat.ltb_lt in Ei.
  destruct (str_eqb (lower (nth i tokens [])) (u "exact"));
    [discriminate H|].
  destruct (str_eqb (nth i tokens []) [PLUS_MINUS]) eqn:Epm.
  - apply str_eqb_eq in Epm.
    destruct (S i <? List.length tokens)%nat eqn:Es; [|discriminate H].
    apply Nat.ltb_lt in Es.
    destruct (Md._safe_float (Some (nth (S i) tokens []))) as [val|] eqn:Ev;
      [|discriminate H].
    injection H as <- <- _. auto.
  - exfalso. destruct (startswith [PLUS_MINUS] (nth i tokens [])) eqn:Eg;
      [|discriminate H].
    apply startswith_sign in Eg.
    assert (E : nth i tokens [] = [PLUS_MINUS])
      by (apply Hclean; [now apply nth_In | exact Eg]).
    apply str_eqb_eq in E. congruence.
Qed.

(** X5.  In the positional decoder an uncertainty marked [exact] has no
    value and no unit is read after it; and on a tokenized text an
    uncertainty value is always the number read from the token that
    follows a plus-minus sign standing alone. *)
Theorem X5_uncertainty_comes_after_the_sign :
  (forall tokens,
      Md.is_exact (Md.uncertainty_kind (Md.decode_positional tokens)) = true ->
      Md.uncertainty_value (Md.decode_positional tokens) = None
      /\ Md.units (Md.decode_positional tokens) = None)
  /\ (forall text v,
         Md.uncertainty_value (Md.decode_positional (Md._tokenize_loose text))
         = Some v ->
         Md.uncertainty_kind (Md.decode_positional (Md._tokenize_loose text))
         = Some Md.numeric
         /\ exists i,
             (S i < List.length (Md._tokenize_loose text))%nat
             /\ nth i (Md._tokenize_loose text) [] = [PLUS_MINUS]
             /\ Md._safe_float (Some (nth (S i) (Md._tokenize_loose text) []))
                = Some v).
Proof.
  split.
  - intros tokens. unfold Md.decode_positional.
    destruct (Md.step_structure tokens) as [st i0].
    destruct (Md.step_float tokens i0) as [a i1].
    destruct (Md.step_float tokens i1) as [b i2].
    destruct (Md.step_uncertainty tokens i2) as [[k v] i3] eqn:E3.
    destruct (Md.step_units k tokens i3) as [un i4] eqn:E4.
    destruct (Md.step_mass tokens i4) as [[m mu] i5].
    cbn [Md.uncertainty_kind Md.uncertainty_value Md.units].
    intro Hk. destruct k as [[|]|]; try discriminate Hk. split.
    + now apply step_uncertainty_exact in E3.
    + unfold Md.step_units in E4. simpl in E4. now injection E4 as <- _.
  - intros text v. generalize (token_with_sign_is_sign text).
    generalize (Md._tokenize_loose text) as tokens. intros tokens Hclean.
    unfold Md.decode_positional.
    destruct (Md.step_structure tokens) as [st i0].
    destruct (Md.step_float tokens i0) as [a i1].
    destruct (Md.step_float tokens i1) as [b i2].
    destruct (Md.step_uncertainty tokens i2) as [[k w] i3] eqn:E3.
    destruct (Md.step_units k tokens i3) as [un i4].
    destruct (Md.step_mass tokens i4) as [[m mu] i5].
    cbn [Md.uncertainty_kind Md.uncertainty_value]. intros ->.
    destruct (step_uncertainty_value _ _ _ _ _ Hclean E3)
      as (Hk & Hi & Hsign & Hval).
    split; [exact Hk|]. now exists i2.
Qed.

Lemma X5_uncertainty_comes_after_the_sign_witness :
  (Md.uncertainty_value (Md.decode_positional [u "H2"; u "1.0"; u "2.0"; u "Exact"])
   = None
   /\ Md.units (Md.decode_positional [u "H2"; u "1.0"; u "2.0"; u "Exact"]) = None)
  /\ (Md.uncertainty_kind
        (Md.decode_positional (Md._tokenize_loose (u "H2 1.0 2.0 ±0.5")))
      = Some Md.numeric
      /\ exists i,
          (S i < List.length (Md._tokenize_loose (u "H2 1.0 2.0 ±0.5")))%nat
          /\ nth i (Md._tokenize_loose (u "H2 1.0 2.0 ±0.5")) [] = [PLUS_MINUS]
          /\ Md._safe_float
               (Some (nth (S i) (Md._tokenize_loose (u "H2 1.0 2.0 ±0.5")) []))
             = Some 0.5%float).
Proof.
  destruct X5_uncertainty_comes_after_the_sign as [Hexact Hvalue]. split.
  - apply Hexact. vm_compute. reflexivity.
  - apply Hvalue. vm_compute. reflexivity.
Defined.

(** ** The document scanner, again *)

Lemma lstrip_app : forall a w,
  lstrip (a ++ w) = if forallb isspace a then lstrip w else lstrip a ++ w.
Proof.
  induction a as [|c a IH]; intro w; simpl; [reflexivity|].
  destruct (isspace c); simpl; [apply IH | reflexivity].
Qed.

Lemma lstrip_spaces : forall w, forallb isspace w = true -> lstrip w = [].
Proof.
  induction w as [|c w IH]; simpl; intro H; [reflexivity|].
  apply andb_prop in H. destruct H as [Hc Hw]. rewrite Hc. now apply IH.
Qed.

Lemma strip_app_spaces : forall a w,
  forallb isspace w = true -> strip (a ++ w) = strip a.
Proof.
  intros a w Hw. unfold strip, rstrip. rewrite lstrip_app.
  destruct (forallb isspace a) eqn:Ea.
  - now rewrite (lstrip_spaces w Hw), (lstrip_spaces a Ea).
  - rewrite rev_app_distr, lstrip_app.
    now rewrite (forallb_rev _ _ _ Hw).
Qed.

Lemma span_app : forall p s, s = fst (span p s) ++ snd (span p s).
Proof.
  intros p. induction s as [|c s IH]; simpl; [reflexivity|].
  destruct (p c); [|reflexivity].
  destruct (span p s) as [a b]. simpl in *. now f_equal.
Qed.

Lemma span_prefix : forall p s, forallb p (fst (span p s)) = true.
Proof.
  intros p. induction s as [|c s IH]; simpl; [reflexivity|].
  destruct (p c) eqn:E; [|reflexivity].
  destruct (span p s) as [a b]. simpl in *. now rewrite E.
Qed.

Lemma strip_rstrip_newlines : forall s, strip (rstrip_newlines s) = strip s.
Proof.
  intro s. unfold rstrip_newlines.
  rewrite <- (rev_involutive s) at 2.
  rewrite (span_app (N.eqb 0x0A) (rev s)) at 2.
  rewrite rev_app_distr. symmetry. apply strip_app_spaces.
  apply forallb_rev.
  apply forallb_impl with (p := N.eqb 0x0A); [|apply span_prefix].
  intros c Hc. apply N.eqb_eq in Hc. now subst c.
Qed.

Lemma nonblank_rstrip_newlines : forall s,
  nonblank (rstrip_newlines s) = nonblank s.
Proof. intro s. unfold nonblank. now rewrite strip_rstrip_newlines. Qed.

(** The scan skips blank lines wherever they stand. *)
Lemma scan_filter_nonblank : forall lines,
  Md.scan (filter nonblank lines) = Md.scan lines.
Proof.
  intro lines.
  assert (H : forall n lines, (List.length lines <= n)%nat ->
                              Md.scan (filter nonblank lines) = Md.scan lines).
  { clear lines. induction n as [|n IH]; intros [|ln rest] Hlen;
      simpl in Hlen; try lia; try reflexivity.
    cbn [filter]. unfold nonblank at 1.
    destruct (is_empty (strip ln)) eqn:Eb; cbn [negb].
    - cbn [Md.scan]. rewrite Eb. apply IH. lia.
    - cbn [Md.scan]. rewrite Eb.
      match goal with
      | |- ?acc (filter nonblank rest) [] = _ =>
        assert (Hacc : forall ls data,
                   (List.length ls <= n)%nat ->
                   acc (filter nonblank ls) data = acc ls data)
      end.
      { induction ls as [|l ls IHls]; intros data Hls; [reflexivity|].
        simpl in Hls. cbn [filter]. unfold nonblank at 1.
        destruct (is_empty (strip l)) eqn:El; cbn [negb].
        - simpl. rewrite ?El. apply IHls. lia.
        - simpl. rewrite ?El. destruct (Md.has_cas (strip l)).
          + f_equal. apply IH. lia.
          + apply IHls. lia. }
      apply Hacc. lia. }
  exact (H (List.length lines) lines (Nat.le_refl _)).
Qed.

Lemma find_index_filter : forall (p q : str -> bool) (l : list str),
  (forall x, p x = true -> q x = true) ->
  match Md.find_index p l with
  | None => Md.find_index p (filter q l) = None
  | Some i =>
    exists j, Md.find_index p (filter q l) = Some j
              /\ skipn j (filter q l) = filter q (skipn i l)
              /\ skipn (S j) (filter q l) = filter q (skipn (S i) l)
  end.
Proof.
  intros p q l Hpq. induction l as [|x l IH]; simpl; [reflexivity|].
  destruct (p x) eqn:Ep.
  - rewrite (Hpq x Ep). simpl. rewrite Ep. exists 0%nat.
    simpl. rewrite (Hpq x Ep). auto.
  - destruct (Md.find_index p l) as [i|]; simpl.
    + destruct IH as (j & Hj & H0 & H1). destruct (q x); simpl.
      * rewrite Ep, Hj. exists (S j). simpl. auto.
      * exists j. auto.
    + destruct (q x); simpl; [rewrite Ep|]; now rewrite IH.
Qed.

Lemma find_index_first : forall (p : str -> bool) a y b,
  (forall x, In x a -> p x = false) -> p y = true ->
  Md.find_index p (a ++ y :: b) = Some (List.length a).
Proof.
  intros p a y b Ha Hy. induction a as [|x a IH]; simpl.
  - now rewrite Hy.
  - rewrite (Ha x (in_eq x a)), IH; [reflexivity|].
    intros z Hz. apply Ha. now right.
Qed.

Lemma is_dihydrogen_nonblank : forall x,
  str_eqb (strip x) (u "Dihydrogen") = true -> nonblank x = true.
Proof.
  intros x H. apply str_eqb_eq in H. unfold nonblank. now rewrite H.
Qed.

Lemma is_header_nonblank : forall x,
  startswith (u "Species Name") (strip x) = true -> nonblank x = true.
Proof.
  intros x H. unfold nonblank. now destruct (strip x).
Qed.

Lemma start_filter_nonblank : forall lines,
  skipn (Md.start_index (filter nonblank lines)) (filter nonblank lines)
  = filter nonblank (skipn (Md.start_index lines) lines).
Proof.
  intro lines. unfold Md.start_index.
  pose proof (find_index_filter _ nonblank lines is_dihydrogen_nonblank) as H1.
  pose proof (find_index_filter _ nonblank lines is_header_nonblank) as H2.
  destruct (Md.find_index (fun ln => str_eqb (strip ln) (u "Dihydrogen")) lines)
    as [i|].
  - destruct H1 as (j & -> & H & _). exact H.
  - rewrite H1.
    destruct (Md.find_index
                (fun ln => startswith (u "Species Name") (strip ln)) lines)
      as [i|].
    + destruct H2 as (j & -> & _ & H). exact H.
    + rewrite H2. reflexivity.
Qed.

Lemma map_rstrip_filter : forall file_lines,
  map rstrip_newlines (filter nonblank file_lines)
  = filter nonblank (map rstrip_newlines file_lines).
Proof.
  intro l. rewrite filter_map_swap. f_equal.
  apply filter_ext. intro x. symmetry. apply nonblank_rstrip_newlines.
Qed.

(** X6.  Blank lines do not count: a document and the same document
    without its empty and white-space-only lines give the same
    records. *)
Theorem X6_blank_lines_are_ignored : forall file_lines,
  Md.parse_file (filter nonblank file_lines) = Md.parse_file file_lines.
Proof.
  intro file_lines. unfold Md.parse_file.
  rewrite map_rstrip_filter, start_filter_nonblank.
  apply scan_filter_nonblank.
Qed.

(** X7.  When a line of the document is [Dihydrogen] (white space
    aside), everything before the first such line is ignored, headers
    included: the records are those of the document that starts there. *)
Theorem X7_records_start_at_dihydrogen : forall before line after,
  (forall x, In x before -> strip x <> u "Dihydrogen") ->
  strip line = u "Dihydrogen" ->
  Md.parse_file (before ++ line :: after) = Md.parse_file (line :: after).
Proof.
  intros before line after Hbefore Hline. unfold Md.parse_file.
  set (p := fun ln => str_eqb (strip ln) (u "Dihydrogen")).
  assert (Hp : p (rstrip_newlines line) = true).
  { unfold p. rewrite strip_rstrip_newlines. now apply str_eqb_eq. }
  rewrite map_app. cbn [map]. unfold Md.start_index. fold p.
  rewrite find_index_first; [|
    | exact Hp].
  - cbn [Md.find_index]. rewrite Hp.
    rewrite skipn_app, skipn_all, Nat.sub_diag. reflexivity.
  - intros x Hx. apply in_map_iff in Hx. destruct Hx as [y [<- Hy]].
    unfold p. rewrite strip_rstrip_newlines.
    destruct (str_eqb (strip y) (u "Dihydrogen")) eqn:E; [|reflexivity].
    apply str_eqb_eq in E. now apply Hbefore in Hy.
Qed.

Lemma X7_records_start_at_dihydrogen_witness :
  Md.parse_file [u "Species Name  Formula"; u "Water"; u "H2O 1.0 2.0";
                 u " Dihydrogen "; u "H2 0.0 0.0 exact 2.016 1333-74-0*1"]
  = Md.parse_file [u " Dihydrogen "; u "H2 0.0 0.0 exact 2.016 1333-74-0*1"].
Proof.
  apply (X7_records_start_at_dihydrogen
           [u "Species Name  Formula"; u "Water"; u "H2O 1.0 2.0"]).
  - intros x [<- | [<- | [<- | []]]]; vm_compute; discriminate.
  - vm_compute. reflexivity.
Defined.

Lemma emit_at_most_one : forall name data,
  (List.length (Md.emit name data) <= 1)%nat.
Proof.
  intros name data. unfold Md.emit.
  destruct (Md.parse_record _ _); simpl; lia.
Qed.

Lemma emit_no_data : forall name, Md.emit name [] = [].
Proof. intro name. reflexivity. Qed.

Lemma scan_bound : forall lines,
  (2 * List.length (Md.scan lines) <= List.length (filter nonblank lines))%nat.
Proof.
  intro lines.
  assert (H : forall n lines,
             (List.length lines <= n)%nat ->
             (2 * List.length (Md.scan lines)
              <= List.length (filter nonblank lines))%nat).
  { clear lines. induction n as [|n IH]; intros [|ln rest] Hlen;
      simpl in Hlen; try lia; try (simpl; lia).
    cbn [filter Md.scan]. unfold nonblank at 1.
    destruct (is_empty (strip ln)) eqn:Eb; cbn [negb].
    - apply IH. lia.
    - match goal with
      | |- (2 * List.length (?acc rest []) <= _)%nat =>
        assert (Hacc : forall ls data,
                   (List.length ls <= n)%nat ->
                   (2 * List.length (acc ls data)
                    <= List.length (filter nonblank ls)
                       + (if is_empty data then 1 else 2))%nat)
      end.
      { induction ls as [|l ls IHls]; intros data Hls.
        - pose proof (emit_at_most_one (strip ln) data).
          destruct data; [rewrite emit_no_data|]; simpl; lia.
        - simpl in Hls. cbn [filter]. unfold nonblank at 1.
          destruct (is_empty (strip l)) eqn:El; cbn [negb]; simpl;
            rewrite ?El.
          + apply IHls. lia.
          + destruct (Md.has_cas (strip l)).
            * rewrite length_app.
              pose proof (emit_at_most_one (strip ln) (data ++ [strip l])).
              pose proof (IH ls ltac:(lia)).
              destruct (is_empty data); lia.
            * pose proof (IHls (data ++ [strip l]) ltac:(lia)) as Hi.
              replace (is_empty (data ++ [strip l])) with false in Hi
                by (now destruct data).
              destruct (is_empty data); lia. }
      pose proof (Hacc rest [] ltac:(lia)) as Hr. simpl in *. lia. }
  exact (H (List.length lines) lines (Nat.le_refl _)).
Qed.

Lemma filter_skipn_length : forall (p : str -> bool) k l,
  (List.length (filter p (skipn k l)) <= List.length (filter p l))%nat.
Proof.
  intros p k l. rewrite <- (firstn_skipn k l) at 2.
  rewrite filter_app, length_app. lia.
Qed.

(** X8.  Every record takes at least two non-blank lines of the
    document, a species-name line and a data line: there are at most half
    as many records as non-blank lines. *)
Theorem X8_two_lines_per_record : forall file_lines,
  (2 * List.length (Md.parse_file file_lines)
   <= List.length (filter nonblank file_lines))%nat.
Proof.
  intro file_lines. unfold Md.parse_file.
  etransitivity; [apply scan_bound|].
  etransitivity; [apply filter_skipn_length|].
  now rewrite <- map_rstrip_filter, length_map.
Qed.

(** ** Column detection and row mapping of the PDF script *)

Lemma find_index_bound : forall (p : str -> bool) l k,
  Md.find_index p l = Some k -> (k < List.length l)%nat.
Proof.
  intro p. induction l as [|x l IH]; intros k H; simpl in H; [discriminate H|].
  destruct (p x).
  - injection H as <-. simpl. lia.
  - destruct (Md.find_index p l) as [j|]; [|discriminate H].
    injection H as <-. specialize (IH j eq_refl). simpl. lia.
Qed.

Lemma find_index_exists : forall (p : str -> bool) l x,
  In x l -> p x = true -> exists k, Md.find_index p l = Some k.
Proof.
  intro p. induction l as [|y l IH]; intros x Hin Hp; [contradiction|].
  simpl. destruct (p y) eqn:Ey; [now exists 0%nat|].
  destruct Hin as [-> | Hin]; [congruence|].
  destruct (IH x Hin Hp) as [k ->]. now exists (S k).
Qed.

(** One key of [cols] through the loop of [_find_columns]: it keeps the
    index of the first header that matches. *)
Lemma visit_from_slot : forall (proj : Pdf.columns -> Z) (p : str -> bool),
  (forall cols i h,
      proj (Pdf.visit cols i h)
      = if Pdf.unset (proj cols) && p h then i else proj cols) ->
  forall norm i cols,
    (0 <= i)%Z ->
    proj (Pdf.visit_from i norm cols)
    = if Pdf.unset (proj cols)
      then match Md.find_index p norm with
           | Some k => (i + Z.of_nat k)%Z
           | None => (-1)%Z
           end
      else proj cols.
Proof.
  intros proj p Hvisit. induction norm as [|h norm IH]; intros i cols Hi.
  - simpl. destruct (Pdf.unset (proj cols)) eqn:E; [|reflexivity].
    now apply Z.eqb_eq in E.
  - cbn [Pdf.visit_from Md.find_index]. rewrite IH by lia. rewrite Hvisit.
    destruct (Pdf.unset (proj cols)) eqn:E; cbn [andb]; [|now rewrite E].
    destruct (p h).
    + replace (Pdf.unset i) with false
        by (symmetry; apply Z.eqb_neq; lia).
      f_equal. lia.
    + rewrite E. destruct (Md.find_index p norm); simpl; [|reflexivity].
      lia.
Qed.

Lemma first_index_bound : forall p l,
  (-1 <= first_index p l < Z.of_nat (List.length l))%Z.
Proof.
  intros p l. unfold first_index.
  destruct (Md.find_index p l) as [k|] eqn:E; [|lia].
  apply find_index_bound in E. lia.
Qed.

(** X9.  Column detection gives each of the five keys the index of the
    first header cell whose normalised text matches that key, or [-1]
    when no cell matches; each key is decided on its own, and every index
    lies within the header. *)
Theorem X9_first_matching_header_wins : forall header,
  Pdf._find_columns header
  = {| Pdf.formula := first_index Pdf.is_formula (map Pdf._normalize_header header);
       Pdf.state := first_index Pdf.is_state (map Pdf._normalize_header header);
       Pdf.enthalpy := first_index Pdf.is_enthalpy (map Pdf._normalize_header header);
       Pdf.entropy := first_index Pdf.is_entropy (map Pdf._normalize_header header);
       Pdf.gibbs := first_index Pdf.is_gibbs (map Pdf._normalize_header header) |}
  /\ Forall (fun c => (-1 <= c < Z.of_nat (List.length header))%Z)
            [ Pdf.formula (Pdf._find_columns header);
              Pdf.state (Pdf._find_columns header);
              Pdf.enthalpy (Pdf._find_columns header);
              Pdf.entropy (Pdf._find_columns header);
              Pdf.gibbs (Pdf._find_columns header) ].
Proof.
  intro header.
  assert (Hslot : forall proj p,
             (forall cols i h,
                 proj (Pdf.visit cols i h)
                 = if Pdf.unset (proj cols) && p h then i else proj cols) ->
             proj Pdf.no_columns = (-1)%Z ->
             proj (Pdf._find_columns header)
             = first_index p (map Pdf._normalize_header header)).
  { intros proj p Hvisit Hinit. unfold Pdf._find_columns, first_index.
    rewrite (visit_from_slot proj p Hvisit) by lia. rewrite Hinit. simpl.
    now destruct (Md.find_index p _). }
  pose proof (Hslot Pdf.formula Pdf.is_formula
                (fun _ _ _ => eq_refl) eq_refl) as H1.
  pose proof (Hslot Pdf.state Pdf.is_state
                (fun _ _ _ => eq_refl) eq_refl) as H2.
  pose proof (Hslot Pdf.enthalpy Pdf.is_enthalpy
                (fun _ _ _ => eq_refl) eq_refl) as H3.
  pose proof (Hslot Pdf.entropy Pdf.is_entropy
                (fun _ _ _ => eq_refl) eq_refl) as H4.
  pose proof (Hslot Pdf.gibbs Pdf.is_gibbs
                (fun _ _ _ => eq_refl) eq_refl) as H5.
  split.
  - destruct (Pdf._find_columns header). simpl in *. now subst.
  - rewrite H1, H2, H3, H4, H5.
    repeat (apply Forall_cons;
            [rewrite <- (length_map Pdf._normalize_header header);
             apply first_index_bound|]).
    apply Forall_nil.
Qed.

Lemma flat_map_if : forall (A B : Type) (c : A -> bool) (f : A -> B) l,
  flat_map (fun x => if c x then [f x] else []) l = map f (filter c l).
Proof.
  intros A B c f. induction l as [|x l IH]; simpl; [reflexivity|].
  destruct (c x); simpl; now rewrite IH.
Qed.

(** X10.  When some header cell normalises to a formula heading, the
    table gives exactly one record for each row that has content, in
    order, however many cells the row has: a short row is not skipped, its
    missing cells read as empty. *)
Theorem X10_one_record_per_row : forall header rows cell,
  In cell header ->
  Pdf.is_formula (Pdf._normalize_header cell) = true ->
  Pdf._rows_to_records (header :: rows)
  = map (Pdf.row_record (Pdf._find_columns header))
        (filter Pdf.has_content rows).
Proof.
  intros header rows cell Hin Hcell. unfold Pdf._rows_to_records.
  replace (Pdf.unset (Pdf.formula (Pdf._find_columns header))) with false.
  - apply flat_map_if.
  - symmetry. unfold Pdf._find_columns.
    rewrite (visit_from_slot Pdf.formula Pdf.is_formula
               (fun _ _ _ => eq_refl)) by lia.
    change (Pdf.unset (Pdf.formula Pdf.no_columns)) with true. cbv iota.
    destruct (find_index_exists Pdf.is_formula
                (map Pdf._normalize_header header)
                (Pdf._normalize_header cell)) as [k ->];
      [now apply in_map | exact Hcell |].
    unfold Pdf.unset. apply Z.eqb_neq. lia.
Qed.

Lemma X10_one_record_per_row_witness :
  Pdf._rows_to_records
    [ [u "Chemical Formula"; u "State"; u "Enthalpy"];
      [u "CO2"; u "(g)"; u "-393.5"];
      [u "   "; u ""];
      [u "H2O"] ]
  = map (Pdf.row_record
           (Pdf._find_columns [u "Chemical Formula"; u "State"; u "Enthalpy"]))
        (filter Pdf.has_content
                [ [u "CO2"; u "(g)"; u "-393.5"]; [u "   "; u ""]; [u "H2O"] ]).
Proof.
  apply (X10_one_record_per_row _ _ (u "Chemical Formula")).
  - left. reflexivity.
  - vm_compute. reflexivity.
Defined.

(** ** Header normalisation *)

Lemma lower_char_idempotent : forall c, lower_char (lower_char c) = lower_char c.
Proof.
  intro c. unfold lower_char.
  destruct ((0x41 <=? c) && (c <=? 0x5A)) eqn:E; rewrite ?E; [|reflexivity].
  replace ((0x41 <=? c + 32) && (c + 32 <=? 0x5A)) with false; [reflexivity|].
  symmetry. codepoint_arith.
Qed.

Lemma isspace_lower_char : forall c, isspace (lower_char c) = isspace c.
Proof.
  intro c. unfold lower_char.
  destruct ((0x41 <=? c) && (c <=? 0x5A)) eqn:E; [|reflexivity].
  replace (isspace c) with false by (symmetry; unfold isspace; codepoint_arith).
  unfold isspace. codepoint_arith.
Qed.

Lemma lower_idempotent : forall s, lower (lower s) = lower s.
Proof.
  intro s. unfold lower. rewrite map_map. apply map_ext.
  apply lower_char_idempotent.
Qed.

Lemma lstrip_lower : forall s, lstrip (lower s) = lower (lstrip s).
Proof.
  induction s as [|c s IH]; simpl; [reflexivity|].
  rewrite isspace_lower_char. now destruct (isspace c).
Qed.

Lemma strip_lower : forall s, strip (lower s) = lower (strip s).
Proof.
  intro s. unfold strip, rstrip, lower.
  fold (lower s). rewrite lstrip_lower. unfold lower.
  rewrite <- map_rev. fold (lower (rev (lstrip s))).
  rewrite lstrip_lower. unfold lower. now rewrite map_rev.
Qed.

Lemma collapse_ws_lower : forall s b,
  Pdf.collapse_ws b (lower s) = lower (Pdf.collapse_ws b s).
Proof.
  induction s as [|c s IH]; intro b; simpl; [reflexivity|].
  rewrite isspace_lower_char.
  destruct (isspace c); [destruct b|]; simpl; now rewrite IH.
Qed.

Lemma collapse_ws_idempotent : forall s b,
  Pdf.collapse_ws b (Pdf.collapse_ws b s) = Pdf.collapse_ws b s.
Proof.
  induction s as [|c s IH]; intro b; simpl; [reflexivity|].
  destruct (isspace c) eqn:E.
  - destruct b; [apply IH|]. simpl. now rewrite IH.
  - simpl. destruct b; simpl; rewrite E; now rewrite IH.
Qed.

Lemma collapse_ws_snoc : forall s b x,
  isspace x = false ->
  Pdf.collapse_ws b (s ++ [x]) = Pdf.collapse_ws b s ++ [x].
Proof.
  induction s as [|c s IH]; intros b x Hx; simpl.
  - now rewrite Hx.
  - destruct (isspace c); [destruct b|]; simpl; now rewrite IH.
Qed.

Lemma collapse_ws_clean : forall s,
  clean_head s -> clean_head (rev s) ->
  clean_head (Pdf.collapse_ws false s)
  /\ clean_head (rev (Pdf.collapse_ws false s)).
Proof.
  intros s Hhead Htail. split.
  - destruct s as [|c s]; [exact I|]. simpl in *. now rewrite Hhead.
  - destruct (rev s) as [|x r] eqn:E.
    + apply (f_equal (@rev codepoint)) in E. rewrite rev_involutive in E.
      now subst s.
    + apply (f_equal (@rev codepoint)) in E. rewrite rev_involutive in E.
      subst s. simpl in *. rewrite (collapse_ws_snoc _ _ _ Htail).
      rewrite rev_app_distr. exact Htail.
Qed.

Lemma clean_head_lower : forall s, clean_head s -> clean_head (lower s).
Proof.
  intros [|c s] H; simpl in *; [exact I|]. now rewrite isspace_lower_char.
Qed.

Lemma normalize_header_idempotent : forall cell,
  Pdf._normalize_header (Pdf._normalize_header cell)
  = Pdf._normalize_header cell.
Proof.
  intro cell. unfold Pdf._normalize_header at 1.
  assert (Hstrip : strip (Pdf._normalize_header cell)
                   = Pdf._normalize_header cell).
  { unfold Pdf._normalize_header. rewrite <- strip_lower.
    destruct (strip_clean (lower cell)) as [H1 H2].
    destruct (collapse_ws_clean _ H1 H2) as [H3 H4].
    now apply strip_fixed. }
  rewrite Hstrip. unfold Pdf._normalize_header.
  rewrite <- collapse_ws_lower, lower_idempotent.
  apply collapse_ws_idempotent.
Qed.

(** X11.  Column detection does not depend on the case of the ASCII
    letters of the header cells, nor on the white space around them, nor
    on their being normalised beforehand: it finds the same columns in a
    header, in the header with its ASCII letters in lower case, in the
    header with its cells stripped and in the header with its cells
    normalised. *)
Theorem X11_headers_without_case_or_padding : forall header,
  Pdf._find_columns (map lower header) = Pdf._find_columns header
  /\ Pdf._find_columns (map strip header) = Pdf._find_columns header
  /\ Pdf._find_columns (map Pdf._normalize_header header)
     = Pdf._find_columns header.
Proof.
  intro header. unfold Pdf._find_columns. rewrite !map_map.
  split; [|split]; f_equal; apply map_ext; intro cell.
  - unfold Pdf._normalize_header. now rewrite strip_lower, lower_idempotent.
  - unfold Pdf._normalize_header. now rewrite strip_idempotent.
  - apply normalize_header_idempotent.
Qed.

(** ** Numeric coercion of the PDF script, again *)

Lemma filter_lstrip : forall (p : codepoint -> bool) s,
  (forall c, p c = true -> isspace c = false) ->
  filter p (lstrip s) = filter p s.
Proof.
  intros p s Hp. induction s as [|c s IH]; simpl; [reflexivity|].
  destruct (isspace c) eqn:E; [|reflexivity].
  rewrite IH. destruct (p c) eqn:Ec; [|reflexivity].
  apply Hp in Ec. congruence.
Qed.

Lemma filter_strip : forall (p : codepoint -> bool) s,
  (forall c, p c = true -> isspace c = false) ->
  filter p (strip s) = filter p s.
Proof.
  intros p s Hp. unfold strip, rstrip.
  rewrite filter_rev, (filter_lstrip p _ Hp), filter_rev, rev_involutive.
  apply filter_lstrip. exact Hp.
Qed.

Lemma filter_filter_impl : forall (A : Type) (p q : A -> bool) l,
  (forall x, p x = true -> q x = true) ->
  filter p (filter q l) = filter p l.
Proof.
  intros A p q l Hpq. induction l as [|x l IH]; simpl; [reflexivity|].
  destruct (q x) eqn:Eq; simpl; rewrite IH; [reflexivity|].
  destruct (p x) eqn:Ep; [|reflexivity].
  apply Hpq in Ep. congruence.
Qed.

Lemma cleaned_is_filter : forall s,
  Pdf.cleaned s = filter Pdf.numeric_char s.
Proof.
  intro s. unfold Pdf.cleaned, remove_char.
  rewrite filter_filter_impl by exact numeric_char_not_comma.
  apply filter_strip. intros c Hc.
  apply numeric_char_not_space in Hc. now apply negb_true_iff in Hc.
Qed.

(** X12.  The coercion of the PDF script sees nothing of a text but its
    characters among [0-9+-.Ee], in order: two texts with the same such
    characters coerce alike, wherever white space, units, commas or other
    symbols stand in them. *)
Theorem X12_coercion_sees_numeric_characters_only : forall s s',
  filter Pdf.numeric_char s = filter Pdf.numeric_char s' ->
  Pdf._safe_float (Some s) = Pdf._safe_float (Some s').
Proof.
  intros s s' H.
  now rewrite !pdf_safe_float_cleaned, !cleaned_is_filter, H.
Qed.

Lemma X12_coercion_sees_numeric_characters_only_witness :
  Pdf._safe_float (Some (u "H2O: 1,0 to 5 kJ")) = Pdf._safe_float (Some (u "2105")).
Proof.
  apply X12_coercion_sees_numeric_characters_only. vm_compute. reflexivity.
Defined.

(** X13.  In the text scrape the second and the third numeric segment of
    a line are kept as they parse, zero included: only the first one is
    replaced by the sentinel when it is zero. *)
Theorem X13_later_zeros_are_kept : forall ln n0 n1 others f,
  (3 <= List.length (Pdf.segments ln))%nat ->
  Pdf.numeric_segments (Pdf.segments ln) = n0 :: n1 :: others ->
  Pdf._safe_float (Some n1) = Some f ->
  exists rec,
    Pdf.scrape_line ln = [rec]
    /\ get "entropy_298K" rec = Some (VFloat f)
    /\ (forall n2 rest g,
           others = n2 :: rest -> Pdf._safe_float (Some n2) = Some g ->
           get "gibbs_free_energy_298K" rec = Some (VFloat g))
    /\ (others = [] -> get "gibbs_free_energy_298K" rec = Some sentinel).
Proof.
  intros ln n0 n1 others f Hlen Hnums Hf. unfold Pdf.scrape_line.
  apply Nat.ltb_ge in Hlen. rewrite Hlen, Hnums.
  cbn [List.length Nat.leb Nat.ltb nth]. rewrite Hf.
  eexists. split; [reflexivity|]. split; [read_key; reflexivity|]. split.
  - intros n2 rest g -> Hg. read_key.
    cbn [List.length Nat.leb Nat.ltb nth]. now rewrite Hg.
  - intros ->. read_key. reflexivity.
Qed.

Lemma X13_later_zeros_are_kept_witness :
  exists rec,
    Pdf.scrape_line (u "H2  -1.5  0.0  0") = [rec]
    /\ get "entropy_298K" rec = Some (VFloat 0)
    /\ (forall n2 rest g,
           [u "0"] = n2 :: rest -> Pdf._safe_float (Some n2) = Some g ->
           get "gibbs_free_energy_298K" rec = Some (VFloat g))
    /\ ([u "0"] = [] -> get "gibbs_free_energy_298K" rec = Some sentinel).
Proof.
  apply (X13_later_zeros_are_kept
           (u "H2  -1.5  0.0  0") (u "-1.5") (u "0.0") [u "0"] 0%float).
  - vm_compute. lia.
  - vm_compute. reflexivity.
  - vm_compute. reflexivity.
Defined.

(** ** The cascade of the PDF script *)

(** X14.  The PDF pipeline raises in one case only: no table from the
    first library, the second library installed, and the document failing
    to open in it; the error is then the one of the opening. *)
Theorem X14_only_opening_the_document_raises : forall doc e,
  Pdf.parse_pdf_to_json doc = Raise e <->
  Pdf._extract_with_camelot doc = []
  /\ Pdf.pdfplumber_installed doc = true
  /\ Pdf.pdfplumber_open doc = Raise e.
Proof.
  intros doc e. unfold Pdf.parse_pdf_to_json, Pdf._extract_with_pdfplumber.
  destruct (Pdf._extract_with_camelot doc) as [|t ts]; cbn [is_empty].
  - destruct (Pdf.pdfplumber_installed doc).
    + destruct (Pdf.pdfplumber_open doc) as [pages|e'].
      * split; [discriminate | intros (_ & _ & H); discriminate H].
      * split; [intro H; injection H as ->; auto
               | intros (_ & _ & H); now injection H as ->].
    + split; [discriminate | intros (_ & H & _); discriminate H].
  - split; [discriminate | intros (H & _); discriminate H].
Qed.

Lemma X14_only_opening_the_document_raises_witness :
  Pdf.parse_pdf_to_json (table_document []) = Raise LibraryError.
Proof.
  apply X14_only_opening_the_document_raises.
  split; [|split]; reflexivity.
Defined.

(** X15.  As soon as the tables of the first library give a record, the
    result is the records of these tables in order, with two log entries:
    the second library is not opened and no text is scraped.  The same
    holds for the tables of the second library when the first one finds
    no table. *)
Theorem X15_table_records_end_the_cascade :
  (forall doc,
      flat_map Pdf._rows_to_records (Pdf._extract_with_camelot doc) <> [] ->
      Pdf.parse_pdf_to_json doc
      = Ok (flat_map Pdf._rows_to_records (Pdf._extract_with_camelot doc),
            [ Pdf.camelot_tables (List.length (Pdf._extract_with_camelot doc));
              Pdf.records_after_tables
                (List.length (flat_map Pdf._rows_to_records
                                       (Pdf._extract_with_camelot doc))) ]))
  /\ (forall doc tables,
         Pdf._extract_with_camelot doc = [] ->
         Pdf._extract_with_pdfplumber doc = Ok tables ->
         flat_map Pdf._rows_to_records tables <> [] ->
         Pdf.parse_pdf_to_json doc
         = Ok (flat_map Pdf._rows_to_records tables,
               [ Pdf.camelot_tables 0;
                 Pdf.pdfplumber_tables (List.length tables);
                 Pdf.records_after_tables
                   (List.length (flat_map Pdf._rows_to_records tables)) ])).
Proof.
  split.
  - intros doc H. unfold Pdf.parse_pdf_to_json, Pdf.records_of_tables.
    destruct (Pdf._extract_with_camelot doc) as [|t ts] eqn:E;
      [now contradiction H|].
    cbn [is_empty].
    destruct (flat_map Pdf._rows_to_records (t :: ts)); [now contradiction H|].
    reflexivity.
  - intros doc tables Hc Hp H.
    unfold Pdf.parse_pdf_to_json, Pdf.records_of_tables.
    rewrite Hc, Hp. cbn [is_empty].
    destruct (flat_map Pdf._rows_to_records tables); [now contradiction H|].
    reflexivity.
Qed.

Lemma X15_table_records_end_the_cascade_witness :
  Pdf.parse_pdf_to_json
    (table_document [ [ [u "Formula"; u "Enthalpy"]; [u "CO2"; u "-393.5"] ] ])
  = Ok (Pdf._rows_to_records [ [u "Formula"; u "Enthalpy"]; [u "CO2"; u "-393.5"] ],
        [ Pdf.camelot_tables 1; Pdf.records_after_tables 1 ]).
Proof.
  pose proof (proj1 X15_table_records_end_the_cascade
                (table_document
                   [ [ [u "Formula"; u "Enthalpy"]; [u "CO2"; u "-393.5"] ] ]))
    as H.
  rewrite H; [vm_compute; reflexivity|].
  vm_compute. discriminate.
Defined.

Lemma scrape_pages_all : forall pages,
  (forall p, In p pages -> exists t, Pdf.extract_text p = Ok t) ->
  Pdf.scrape_pages pages
  = (flat_map (fun p => Pdf.scrape_text (page_text p)) pages, true).
Proof.
  induction pages as [|p ps IH]; intro H; simpl; [reflexivity|].
  destruct (H p (in_eq p ps)) as [t Ht]. unfold page_text at 1.
  rewrite Ht, IH; [now destruct t|].
  intros q Hq. apply H. now right.
Qed.

Lemma scrape_pages_stop : forall before page after e,
  (forall p, In p before -> exists t, Pdf.extract_text p = Ok t) ->
  Pdf.extract_text page = Raise e ->
  Pdf.scrape_pages (before ++ page :: after)
  = (flat_map (fun p => Pdf.scrape_text (page_text p)) before, false).
Proof.
  induction before as [|p ps IH]; intros page after e H Hpage; simpl.
  - now rewrite Hpage.
  - destruct (H p (in_eq p ps)) as [t Ht]. unfold page_text at 1.
    rewrite Ht, (IH page after e); [now destruct t | | exact Hpage].
    intros q Hq. apply H. now right.
Qed.

(** X16.  The text scrape reads the pages in order.  When every page
    gives its text, the records are those of all pages and the log counts
    them.  When a page raises, the scrape stops there: the log says that
    it failed, yet the records of the pages before stay in the result, and
    the pages after are not read. *)
Theorem X16_text_scrape_page_by_page :
  (forall doc pages,
      Pdf.pdfplumber_installed doc = true ->
      Pdf.pdfplumber_open doc = Ok pages ->
      (forall p, In p pages -> exists t, Pdf.extract_text p = Ok t) ->
      Pdf.text_scrape doc
      = (flat_map (fun p => Pdf.scrape_text (page_text p)) pages,
         [ Pdf.records_after_text_scrape
             (List.length
                (flat_map (fun p => Pdf.scrape_text (page_text p)) pages)) ]))
  /\ (forall doc before page after e,
         Pdf.pdfplumber_installed doc = true ->
         Pdf.pdfplumber_open doc = Ok (before ++ page :: after) ->
         (forall p, In p before -> exists t, Pdf.extract_text p = Ok t) ->
         Pdf.extract_text page = Raise e ->
         Pdf.text_scrape doc
         = (flat_map (fun p => Pdf.scrape_text (page_text p)) before,
            [ Pdf.text_scrape_failed ])).
Proof.
  split.
  - intros doc pages Hi Ho Hall. unfold Pdf.text_scrape.
    now rewrite Hi, Ho, (scrape_pages_all pages Hall).
  - intros doc before page after e Hi Ho Hall Hpage. unfold Pdf.text_scrape.
    now rewrite Hi, Ho, (scrape_pages_stop before page after e Hall Hpage).
Qed.

Lemma X16_text_scrape_page_by_page_witness :
  Pdf.text_scrape
    (paged_document [text_page (u "CO2  -393.5  213.8  -394.4")])
  = (Pdf.scrape_line (u "CO2  -393.5  213.8  -394.4"),
     [Pdf.records_after_text_scrape 1])
  /\ Pdf.text_scrape
       (paged_document [text_page (u "CO2  -393.5  213.8  -394.4");
                        broken_page;
                        text_page (u "H2O  -285.8  69.9  -237.1")])
     = (Pdf.scrape_line (u "CO2  -393.5  213.8  -394.4"),
        [Pdf.text_scrape_failed]).
Proof.
  destruct X16_text_scrape_page_by_page as [Hall Hstop]. split.
  - rewrite (Hall _ [text_page (u "CO2  -393.5  213.8  -394.4")]).
    + vm_compute. reflexivity.
    + reflexivity.
    + reflexivity.
    + intros p [<- | []]. now eexists.
  - rewrite (Hstop _ [text_page (u "CO2  -393.5  213.8  -394.4")]
                   broken_page
                   [text_page (u "H2O  -285.8  69.9  -237.1")]
                   LibraryError).
    + vm_compute. reflexivity.
    + reflexivity.
    + reflexivity.
    + intros p [<- | []]. now eexists.
    + reflexivity.
Defined.

(** ** The shape of the records *)

(** What holds of the record of every table row and of every scraped
    line holds of every record of the PDF pipeline. *)
Lemma pdf_records_from : forall P : record -> Prop,
  (forall cols row, P (Pdf.row_record cols row)) ->
  (forall ln r, In r (Pdf.scrape_line ln) -> P r) ->
  forall doc recs logs r,
    Pdf.parse_pdf_to_json doc = Ok (recs, logs) -> In r recs -> P r.
Proof.
  intros P Hrow Hline.
  assert (Htable : forall t r, In r (Pdf._rows_to_records t) -> P r).
  { intros [|header rows] r Hin; simpl in Hin; [contradiction|].
    destruct (Pdf.unset _); [contradiction|].
    apply in_flat_map in Hin. destruct Hin as [row [_ Hin]].
    destruct (Pdf.has_content row); [|contradiction].
    destruct Hin as [<- | []]. apply Hrow. }
  assert (Hpages : forall pages r, In r (fst (Pdf.scrape_pages pages)) -> P r).
  { induction pages as [|p ps IH]; intros r Hin; simpl in Hin; [contradiction|].
    destruct (Pdf.extract_text p) as [text|e]; [|contradiction].
    destruct (Pdf.scrape_pages ps) as [rs ok]. simpl in *.
    apply in_app_or in Hin. destruct Hin as [Hin | Hin]; [|now apply IH].
    unfold Pdf.scrape_text in Hin. apply in_flat_map in Hin.
    destruct Hin as [ln [_ Hin]]. now apply Hline with (ln := ln). }
  assert (Hscrape : forall doc r, In r (fst (Pdf.text_scrape doc)) -> P r).
  { intros doc r Hin. unfold Pdf.text_scrape in Hin.
    destruct (Pdf.pdfplumber_installed doc); [|contradiction].
    destruct (Pdf.pdfplumber_open doc) as [pages|e]; [|contradiction].
    pose proof (Hpages pages r) as H.
    destruct (Pdf.scrape_pages pages) as [rs ok]. now apply H. }
  assert (Hall : forall doc tables logs r,
             In r (fst (Pdf.records_of_tables doc tables logs)) -> P r).
  { intros doc tables logs r Hin. unfold Pdf.records_of_tables in Hin.
    destruct (is_empty (flat_map Pdf._rows_to_records tables)).
    - pose proof (Hscrape doc r) as H.
      destruct (Pdf.text_scrape doc) as [rs scrape_logs]. now apply H.
    - simpl in Hin. apply in_flat_map in Hin. destruct Hin as [t [_ Hin]].
      now apply Htable with (t := t). }
  intros doc recs logs r Hrun Hin. unfold Pdf.parse_pdf_to_json in Hrun.
  destruct (is_empty (Pdf._extract_with_camelot doc)).
  - destruct (Pdf._extract_with_pdfplumber doc) as [tables|e];
      [|discriminate Hrun].
    injection Hrun as Hrun. apply (f_equal fst) in Hrun.
    cbn [fst] in Hrun. rewrite <- Hrun in Hin. eapply Hall. exact Hin.
  - injection Hrun as Hrun. apply (f_equal fst) in Hrun.
    cbn [fst] in Hrun. rewrite <- Hrun in Hin. eapply Hall. exact Hin.
Qed.

Lemma or_sentinel_shape : forall o,
  float_or_sentinel (Some (Pdf.or_sentinel o)).
Proof. intros [f|]; [right; now exists f | now left]. Qed.

Lemma phase_of_phases : forall st, In (Pdf.phase_of st) phases.
Proof.
  intro st. unfold Pdf.phase_of, phases.
  repeat match goal with
         | |- context [if ?b then _ else _] => destruct b
         end; simpl; auto 6.
Qed.

Lemma row_record_shape : forall cols row, pdf_shape (Pdf.row_record cols row).
Proof.
  intros cols row. unfold pdf_shape, Pdf.row_record.
  repeat split; read_key; try reflexivity;
    try apply or_sentinel_shape.
  - now eexists.
  - eexists. split; [apply phase_of_phases | reflexivity].
Qed.

Lemma scrape_line_shape : forall ln r,
  In r (Pdf.scrape_line ln) -> pdf_shape r.
Proof.
  intros ln r Hin. unfold Pdf.scrape_line in Hin.
  destruct (List.length (Pdf.segments ln) <? 3)%nat; [contradiction|].
  destruct (1 <=? List.length _)%nat; [|contradiction].
  destruct Hin as [<- | []]. unfold pdf_shape.
  repeat split; read_key; try reflexivity.
  - now eexists.
  - unfold Pdf.truthy_or_sentinel.
    destruct (Pdf._safe_float _) as [f|]; [|now left].
    destruct (float_truthy f); [right; now exists f | now left].
  - destruct (1 <? List.length _)%nat eqn:E; [|now left].
    apply Nat.ltb_lt in E.
    destruct (numeric_segment_parses _ _ E) as [f ->]. right. now exists f.
  - destruct (2 <? List.length _)%nat eqn:E; [|now left].
    apply Nat.ltb_lt in E.
    destruct (numeric_segment_parses _ _ E) as [f ->]. right. now exists f.
  - exists []. split; [simpl; auto 6 | reflexivity].
Qed.

(** X17.  Every record of the PDF pipeline holds a text as structure; a
    float or the sentinel for the enthalpy at 298 K, the entropy and the
    Gibbs energy; one of [gas], [liquid], [solid], [aqueous] or the empty
    string as phase; and the sentinel for every other key. *)
Theorem X17_shape_of_pdf_records : forall doc recs logs r,
  Pdf.parse_pdf_to_json doc = Ok (recs, logs) -> In r recs -> pdf_shape r.
Proof.
  apply pdf_records_from.
  - exact row_record_shape.
  - exact scrape_line_shape.
Qed.

Lemma X17_shape_of_pdf_records_witness :
  pdf_shape
    (hd [] (Pdf._rows_to_records
              [ [u "Formula"; u "State"; u "Enthalpy"];
                [u "CO2"; u "(g)"; u "-393.5"] ])).
Proof.
  apply (X17_shape_of_pdf_records
           (table_document [ [ [u "Formula"; u "State"; u "Enthalpy"];
                               [u "CO2"; u "(g)"; u "-393.5"] ] ])
           (Pdf._rows_to_records [ [u "Formula"; u "State"; u "Enthalpy"];
                                   [u "CO2"; u "(g)"; u "-393.5"] ])
           [ Pdf.camelot_tables 1; Pdf.records_after_tables 1 ]).
  - vm_compute. reflexivity.
  - vm_compute. left. reflexivity.
Defined.

Lemma sanitized_text : forall o,
  is_text (Some (if is_none (of_str o) then sentinel else of_str o)).
Proof. intros [s|]; simpl; now eexists. Qed.

Lemma sanitized_float : forall o,
  float_or_sentinel (Some (if is_none (of_float o) then sentinel else of_float o)).
Proof. intros [f|]; simpl; [right; now exists f | now left]. Qed.

Lemma sanitized_int : forall o,
  int_or_sentinel (Some (if is_none (of_int o) then sentinel else of_int o)).
Proof. intros [n|]; simpl; [right; now exists n | now left]. Qed.

Lemma parse_record_shape : forall line1 line2 rec,
  Md.parse_record line1 line2 = Some rec -> md_shape (Md.sanitize rec).
Proof.
  intros line1 line2 rec H. unfold Md.parse_record in H.
  destruct (is_empty (Md._tokenize_loose line2)); [discriminate H|].
  destruct (Md.step_cas _ _) as [cas relative].
  injection H as <-. unfold md_shape, Md.sanitize. cbn [map fst snd].
  repeat match goal with
         | |- _ /\ _ => split
         end; read_key;
    first [apply sanitized_text | apply sanitized_float | apply sanitized_int].
Qed.

(** X18.  Every record of the markdown pipeline holds texts for the
    common name, the structure and the CAS number; a float or the
    sentinel for the two enthalpies, the uncertainty, the molecular mass
    and its uncertainty; and an integer or the sentinel for the relative
    rank. *)
Theorem X18_shape_of_markdown_records : forall file_lines r,
  In r (Md.parse_file file_lines) -> md_shape r.
Proof.
  intros file_lines r Hin. unfold Md.parse_file in Hin.
  eapply (scan_emitted md_shape); [|exact Hin].
  clear r Hin. intros name data r _ _ Hin. unfold Md.emit in Hin.
  destruct (Md.parse_record name (join [SPACE] data)) as [rec|] eqn:E;
    [|contradiction].
  destruct Hin as [<- | []]. now apply parse_record_shape in E.
Qed.

Lemma X18_shape_of_markdown_records_witness :
  md_shape
    (hd [] (Md.parse_file
              [u "Dihydrogen";
               u "H2 -241.8 0.0 ± 0.1 kJ/mol 2.016 7732-18-5*1"])).
Proof.
  apply (X18_shape_of_markdown_records
           [u "Dihydrogen"; u "H2 -241.8 0.0 ± 0.1 kJ/mol 2.016 7732-18-5*1"]).
  vm_compute. left. reflexivity.
Defined.

(** ** How the scanner groups lines *)

(** X19.  After a species-name line the scanner gathers the non-blank
    lines, stripped, up to and including the first one that holds a
    [CAS*rank] token, decodes them as one record and goes on with the
    line after; when no line holds such a token, all the rest of the
    document is the data of that one species. *)
Theorem X19_groups_end_at_cas_lines :
  (forall name ds last rest,
      nonblank name = true ->
      (forall l, In l ds -> Md.has_cas (strip l) = false) ->
      Md.has_cas (strip last) = true ->
      Md.scan (name :: ds ++ last :: rest)
      = Md.emit (strip name) (map strip (filter nonblank ds) ++ [strip last])
        ++ Md.scan rest)
  /\ (forall name ds,
         nonblank name = true ->
         (forall l, In l ds -> Md.has_cas (strip l) = false) ->
         Md.scan (name :: ds)
         = Md.emit (strip name) (map strip (filter nonblank ds))).
Proof.
  split.
  - intros name ds last rest Hname Hds Hlast.
    unfold nonblank in Hname. apply negb_true_iff in Hname.
    cbn [Md.scan]. rewrite Hname.
    assert (Hnb : is_empty (strip last) = false).
    { destruct (strip last); [vm_compute in Hlast; discriminate Hlast|].
      reflexivity. }
    match goal with
    | |- ?acc (ds ++ last :: rest) [] = _ =>
      assert (Hacc : forall ls data,
                 (forall l, In l ls -> Md.has_cas (strip l) = false) ->
                 acc (ls ++ last :: rest) data
                 = Md.emit (strip name)
                           (data ++ map strip (filter nonblank ls)
                                 ++ [strip last])
                   ++ Md.scan rest)
    end.
    { clear ds Hds. induction ls as [|l ls IH]; intros data Hls.
      - simpl. now rewrite Hnb, Hlast.
      - cbn [app filter]. unfold nonblank at 1.
        destruct (is_empty (strip l)) eqn:El; cbn [negb]; simpl; rewrite ?El.
        + apply IH. intros x Hx. apply Hls. now right.
        + rewrite (Hls l (in_eq l ls)).
          rewrite (IH _ (fun x Hx => Hls x (or_intror Hx))).
          now rewrite <- app_assoc. }
    exact (Hacc ds [] Hds).
  - intros name ds Hname Hds.
    unfold nonblank in Hname. apply negb_true_iff in Hname.
    cbn [Md.scan]. rewrite Hname.
    match goal with
    | |- ?acc ds [] = _ =>
      assert (Hacc : forall ls data,
                 (forall l, In l ls -> Md.has_cas (strip l) = false) ->
                 acc ls data
                 = Md.emit (strip name)
                           (data ++ map strip (filter nonblank ls)))
    end.
    { clear ds Hds. induction ls as [|l ls IH]; intros data Hls.
      - simpl. now rewrite app_nil_r.
      - cbn [filter]. unfold nonblank at 1.
        destruct (is_empty (strip l)) eqn:El; cbn [negb]; simpl; rewrite ?El.
        + apply IH. intros x Hx. apply Hls. now right.
        + rewrite (Hls l (in_eq l ls)).
          rewrite (IH _ (fun x Hx => Hls x (or_intror Hx))).
          now rewrite <- app_assoc. }
    exact (Hacc ds [] Hds).
Qed.

Lemma X19_groups_end_at_cas_lines_witness :
  Md.scan [u "Water"; u "H2O -238.9"; u ""; u " -241.8 7732-18-5*1";
           u "Dihydrogen"; u "H2 0.0"]
  = Md.emit (u "Water")
            (map strip (filter nonblank [u "H2O -238.9"; u ""])
                 ++ [u "-241.8 7732-18-5*1"])
    ++ Md.scan [u "Dihydrogen"; u "H2 0.0"]
  /\ Md.scan [u "Dihydrogen"; u "H2 0.0"] = Md.emit (u "Dihydrogen") [u "H2 0.0"].
Proof.
  destruct X19_groups_end_at_cas_lines as [Hcas Hend]. split.
  - apply (Hcas (u "Water") [u "H2O -238.9"; u ""] (u " -241.8 7732-18-5*1")).
    + vm_compute. reflexivity.
    + intros l [<- | [<- | []]]; vm_compute; reflexivity.
    + vm_compute. reflexivity.
  - apply (Hend (u "Dihydrogen") [u "H2 0.0"]).
    + vm_compute. reflexivity.
    + intros l [<- | []]. vm_compute. reflexivity.
Defined.

(** ** The token that ends a group decodes to a CAS number and a rank *)

Lemma decimal_zero_facts :
  Forall (fun z => forall c, z <= c < z + 10 ->
                             isspace c = false
                             /\ c <> ASTERISK
                             /\ (c < 127 -> is_ascii_digit c = true))
         decimal_zeros.
Proof.
  unfold decimal_zeros, ASTERISK, isspace, is_ascii_digit.
  repeat (apply Forall_cons;
          [intros c Hc; repeat split; codepoint_arith|]).
  apply Forall_nil.
Qed.

Lemma decimal_value_spec : forall c d,
  decimal_value c = Some d ->
  d < 10
  /\ isspace c = false
  /\ c <> ASTERISK
  /\ (c < 127 -> is_ascii_digit c = true).
Proof.
  intros c d H. unfold decimal_value in H.
  destruct (find _ _) as [z|] eqn:E; [|discriminate H].
  injection H as <-. apply find_some in E. destruct E as [Hin Hz].
  assert (Hc : z <= c < z + 10) by codepoint_arith.
  pose proof decimal_zero_facts as F. rewrite Forall_forall in F.
  destruct (F z Hin c Hc) as (H1 & H2 & H3).
  repeat split; auto. lia.
Qed.

Lemma isdecimal_spec : forall c,
  isdecimal c = true ->
  isspace c = false /\ c <> ASTERISK /\ (c < 127 -> is_ascii_digit c = true).
Proof.
  intros c H. unfold isdecimal in H.
  destruct (decimal_value c) as [d|] eqn:E; [|discriminate H].
  now apply decimal_value_spec in E.
Qed.

Lemma to_ascii_decimal_digits : forall s,
  forallb isdecimal s = true ->
  forallb is_ascii_digit (to_ascii_decimal s) = true
  /\ (s <> [] -> to_ascii_decimal s <> []).
Proof.
  induction s as [|c s IH]; intro H; [now split|].
  cbn [forallb] in H. apply andb_prop in H. destruct H as [Hc Hs].
  destruct (IH Hs) as [IH1 _].
  destruct (isdecimal_spec c Hc) as (Hsp & _ & Hascii).
  unfold isdecimal in Hc. cbn [to_ascii_decimal].
  destruct (decimal_value c) as [d|] eqn:Ed; [|discriminate Hc].
  apply decimal_value_spec in Ed. destruct Ed as (Hd & _).
  destruct (c <? 127) eqn:E.
  - apply N.ltb_lt in E. cbn [forallb]. rewrite (Hascii E), IH1.
    split; [reflexivity | discriminate].
  - rewrite Hsp. cbn [forallb]. rewrite IH1. split; [|discriminate].
    rewrite andb_true_r. unfold is_ascii_digit. codepoint_arith.
Qed.

Lemma strip_underscores_digits : forall s prev,
  prev <> 0x5F -> forallb is_ascii_digit s = true ->
  strip_underscores prev s = Some s.
Proof.
  induction s as [|c s IH]; intros prev Hprev H; simpl in *.
  - apply N.eqb_neq in Hprev. now rewrite Hprev.
  - apply andb_prop in H. destruct H as [Hc Hs].
    assert (Hne : c <> 0x5F) by (unfold is_ascii_digit in Hc; codepoint_arith).
    apply N.eqb_neq in Hne. rewrite Hne, Hc, andb_false_r.
    rewrite IH; [reflexivity | now apply N.eqb_neq | exact Hs].
Qed.

Lemma lstrip_c_digits : forall s,
  forallb is_ascii_digit s = true -> lstrip_c s = s.
Proof.
  intros [|c s] H; simpl in *; [reflexivity|].
  apply andb_prop in H. destruct H as [Hc _].
  replace (is_c_space c) with false; [reflexivity|].
  symmetry. unfold is_ascii_digit, is_c_space in *. codepoint_arith.
Qed.

Lemma span_all : forall p s, forallb p s = true -> span p s = (s, []).
Proof.
  intros p. induction s as [|c s IH]; simpl; intro H; [reflexivity|].
  apply andb_prop in H. destruct H as [Hc Hs]. now rewrite Hc, IH.
Qed.

Lemma digits_value_nonneg : forall ds acc,
  forallb is_ascii_digit ds = true -> (0 <= acc)%Z ->
  (0 <= fold_left (fun a d => (a * 10 + (Z.of_N d - 48))%Z) ds acc)%Z.
Proof.
  induction ds as [|d ds IH]; intros acc H Hacc; simpl in *; [exact Hacc|].
  apply andb_prop in H. destruct H as [Hd Hds].
  apply IH; [exact Hds|].
  unfold is_ascii_digit in Hd. apply andb_prop in Hd. destruct Hd as [Hd _].
  apply N.leb_le in Hd. lia.
Qed.

Lemma py_int_decimals : forall s,
  s <> [] -> forallb isdecimal s = true ->
  exists n, py_int s = Ok n /\ (0 <= n)%Z.
Proof.
  intros s Hne Hs. unfold py_int.
  destruct (to_ascii_decimal_digits s Hs) as [Hd Hne'].
  specialize (Hne' Hne).
  rewrite (strip_underscores_digits _ 0 ltac:(discriminate) Hd).
  unfold strip_c.
  rewrite (lstrip_c_digits _ Hd),
          (lstrip_c_digits _ (forallb_rev _ _ _ Hd)), rev_involutive.
  destruct (to_ascii_decimal s) as [|c ds] eqn:E; [congruence|].
  assert (Hsign : parse_sign (c :: ds) = (false, c :: ds)).
  { simpl in Hd. apply andb_prop in Hd. destruct Hd as [Hc _].
    unfold parse_sign.
    replace (c =? 0x2D) with false
      by (symmetry; unfold is_ascii_digit in Hc; codepoint_arith).
    replace (c =? 0x2B) with false
      by (symmetry; unfold is_ascii_digit in Hc; codepoint_arith).
    reflexivity. }
  rewrite Hsign, (span_all _ _ Hd). cbn [is_empty orb negb].
  eexists. split; [reflexivity|].
  unfold digits_value. apply digits_value_nonneg; [exact Hd | lia].
Qed.

Lemma rep_matches_sound : forall cls s lo hi r,
  In r (rep_matches cls lo hi s) ->
  exists m, s = m ++ r
            /\ forallb cls m = true
            /\ (lo <= List.length m)%nat
            /\ (forall h, hi = Some h -> (List.length m <= h)%nat).
Proof.
  intro cls.
  assert (Hstop : forall (s : str) lo (hi : option nat) r,
             In r (match lo with O => [s] | S _ => [] end) ->
             exists m, s = m ++ r
                       /\ forallb cls m = true
                       /\ (lo <= List.length m)%nat
                       /\ (forall h, hi = Some h -> (List.length m <= h)%nat)).
  { intros s lo hi r H. destruct lo; [|destruct H].
    destruct H as [<-|[]]. exists [].
    split; [reflexivity|]. split; [reflexivity|].
    split; [apply Nat.le_refl|]. intros h _. apply Nat.le_0_l. }
  induction s as [|c s IH]; intros lo hi r H; simpl in H.
  - destruct hi as [[|h]|]; now apply Hstop.
  - assert (Hstep : In r (rep_matches cls (pred lo) (option_map pred hi) s) ->
                    cls c = true -> hi <> Some O ->
                    exists m, c :: s = m ++ r
                       /\ forallb cls m = true
                       /\ (lo <= List.length m)%nat
                       /\ (forall h, hi = Some h -> (List.length m <= h)%nat)).
    { intros Hr Ec Hhi. apply IH in Hr.
      destruct Hr as (m & -> & Hm & Hlo & Hup).
      exists (c :: m). split; [reflexivity|].
      split; [simpl; now rewrite Ec, Hm|].
      split; [simpl; lia|].
      intros h ->. specialize (Hup (pred h) eq_refl).
      destruct h; [congruence | simpl in *; lia]. }
    destruct hi as [[|h]|].
    + now apply Hstop.
    + destruct (cls c) eqn:Ec; [|now apply Hstop].
      apply in_app_or in H. destruct H as [H|H]; [|now apply Hstop].
      apply Hstep; [exact H | reflexivity | discriminate].
    + destruct (cls c) eqn:Ec; [|now apply Hstop].
      apply in_app_or in H. destruct H as [H|H]; [|now apply Hstop].
      apply Hstep; [exact H | reflexivity | discriminate].
Qed.

Lemma match_seq_one : forall cls lo hi l s r,
  In r (match_seq (One (Rep cls lo hi) :: l) s) ->
  exists m r1, s = m ++ r1
               /\ forallb cls m = true
               /\ (lo <= List.length m)%nat
               /\ (forall h, hi = Some h -> (List.length m <= h)%nat)
               /\ In r (match_seq l r1).
Proof.
  intros cls lo hi l s r H.
  cbn [match_seq match_atom match_item] in H.
  apply in_flat_map in H. destruct H as (r1 & H1 & H2).
  apply rep_matches_sound in H1. destruct H1 as (m & -> & Hm & Hlo & Hup).
  exists m, r1. auto.
Qed.

Lemma one_char : forall c (m : str),
  forallb (N.eqb c) m = true ->
  (1 <= List.length m)%nat ->
  (forall h, Some 1%nat = Some h -> (List.length m <= h)%nat) ->
  m = [c].
Proof.
  intros c m Hm Hlo Hup. specialize (Hup 1%nat eq_refl).
  destruct m as [|x [|y m]]; simpl in *; try lia.
  rewrite andb_true_r in Hm. apply N.eqb_eq in Hm. now subst.
Qed.

Lemma split_first_app : forall c a b,
  ~ In c a -> split_first c (a ++ c :: b) = (a, Some b).
Proof.
  intros c. induction a as [|x a IH]; intros b Hno; simpl.
  - now rewrite N.eqb_refl.
  - destruct (x =? c) eqn:E.
    + apply N.eqb_eq in E. exfalso. apply Hno. now left.
    + rewrite IH; [reflexivity|]. intro Hin. apply Hno. now right.
Qed.

Lemma decimals_without_asterisk : forall s,
  forallb isdecimal s = true -> ~ In ASTERISK s.
Proof.
  intros s H Hin. rewrite forallb_forall in H.
  destruct (isdecimal_spec _ (H _ Hin)) as (_ & Hne & _). now apply Hne.
Qed.

(** X20.  The scanner ends a group at a token that matches a CAS number
    followed by an asterisk and a rank (line 188).  Such a token, without
    white space and of at most 4300 characters (the default bound of the
    interpreter on the digits of an integer literal), is always decoded by
    the splitter into both parts: the text before the asterisk as CAS
    number and the text after it as a rank that is a natural number. *)
Theorem X20_terminator_token_decodes : forall t : str,
  forallb nonspace t = true ->
  (List.length t <= 4300)%nat ->
  re_fullmatch cas_relative_pattern t = true ->
  exists cas rel n,
    t = cas ++ ASTERISK :: rel
    /\ py_int rel = Ok n
    /\ (0 <= n)%Z
    /\ Md._split_cas_and_relative t = (Some cas, Some n).
Proof.
  intros t Hclean _ Hre. unfold re_fullmatch in Hre.
  apply existsb_exists in Hre. destruct Hre as (r & Hin & Hend).
  unfold cas_relative_pattern, cas_pattern, Chr in Hin. cbn [app] in Hin.
  apply match_seq_one in Hin.
  destruct Hin as (d1 & r1 & E1 & Hd1 & Hl1 & _ & Hin).
  apply match_seq_one in Hin.
  destruct Hin as (m1 & r2 & E2 & Hm1 & _ & _ & Hin).
  apply match_seq_one in Hin.
  destruct Hin as (d2 & r3 & E3 & Hd2 & _ & _ & Hin).
  apply match_seq_one in Hin.
  destruct Hin as (m2 & r4 & E4 & Hm2 & _ & _ & Hin).
  apply match_seq_one in Hin.
  destruct Hin as (d3 & r5 & E5 & Hd3 & _ & _ & Hin).
  apply match_seq_one in Hin.
  destruct Hin as (m3 & r6 & E6 & Hm3 & Hl3 & Hu3 & Hin).
  apply match_seq_one in Hin.
  destruct Hin as (d4 & r7 & E7 & Hd4 & Hl4 & _ & Hin).
  destruct Hin as [<-|[]].
  apply one_char in Hm3; [subst m3 | exact Hl3 | exact Hu3].
  assert (Hr : r7 = []).
  { destruct r7 as [|c [|c' r7]]; [reflexivity | | discriminate Hend].
    simpl in Hend. apply N.eqb_eq in Hend. subst. exfalso.
    rewrite !forallb_app in Hclean. cbn [forallb] in Hclean.
    rewrite !andb_true_iff in Hclean.
    destruct Hclean as (_ & _ & _ & _ & _ & _ & _ & H & _).
    vm_compute in H. discriminate H. }
  set (cas := d1 ++ m1 ++ d2 ++ m2 ++ d3).
  assert (Ht : t = cas ++ ASTERISK :: d4).
  { subst. unfold cas. rewrite app_nil_r, <- !app_assoc. reflexivity. }
  clear E1 E2 E3 E4 E5 E6 E7 Hend Hr. subst t.
  assert (Hno : ~ In ASTERISK cas).
  { assert (Hdash : forall m, forallb (N.eqb 0x2D) m = true -> ~ In ASTERISK m).
    { intros m Hm H. rewrite forallb_forall in Hm. apply Hm in H.
      vm_compute in H. discriminate H. }
    unfold cas. intro H.
    repeat (apply in_app_or in H; destruct H as [H|H]);
      first [ now apply decimals_without_asterisk in H
            | now apply Hdash in H ]. }
  pose proof Hclean as Hparts.
  rewrite forallb_app in Hparts. cbn [forallb] in Hparts.
  rewrite !andb_true_iff in Hparts. destruct Hparts as (Hcas & _ & Hrel).
  assert (Hne : d4 <> []) by (destruct d4; [simpl in Hl4; lia | discriminate]).
  destruct (py_int_decimals d4 Hne Hd4) as (n & Hn & Hpos).
  exists cas, d4, n.
  split; [reflexivity|]. split; [exact Hn|]. split; [exact Hpos|].
  unfold Md._split_cas_and_relative.
  rewrite (strip_no_space _ Hclean), (split_first_app _ _ _ Hno).
  rewrite (strip_no_space d4 Hrel), Hn, (strip_no_space cas Hcas).
  unfold or_none.
  destruct cas as [|c cas'] eqn:Ecas; [|reflexivity].
  exfalso. unfold cas in Ecas.
  destruct d1; [simpl in Hl1; lia | discriminate Ecas].
Qed.

Lemma X20_terminator_token_decodes_witness :
  exists cas rel n,
    u "7732-18-5*1" = cas ++ ASTERISK :: rel
    /\ py_int rel = Ok n
    /\ (0 <= n)%Z
    /\ Md._split_cas_and_relative (u "7732-18-5*1") = (Some cas, Some n).
Proof.
  apply (X20_terminator_token_decodes (u "7732-18-5*1")).
  - vm_compute. reflexivity.
  - vm_compute. lia.
  - vm_compute. reflexivity.
Defined.
